(** * biomedprototype: the NLP analysis functions, embedded and verified

    A shallow embedding of the two deployments of the analysis service,
    [functions/main.py] (module [Main]) and
    [functions/nlp_processor_gcf.py] (module [Gcf]), together with the
    properties their specification states about them.

    Conventions of the embedding.
    - A Python [str] is a Rocq [string]; a character stands for the code
      point of the same number, so the texts covered are those over code
      points 0..255.  [isspace], [isalnum] and [lower] follow Python's
      tables on that range.
    - A Python exception is a value of [exn]: its class and its message.
      A computation that may raise returns an [outcome].
    - The libraries the service calls (contractions, Flair, transformers,
      the speech and identity providers, urllib) are not part of the
      repository: their behaviour is a field of the record [World] the
      functions take, so every property holds for every behaviour of
      theirs unless it states what it needs of them. *)

From Stdlib Require Import String Ascii List Bool Arith Lia.
From Stdlib Require Import Permutation Sorted QArith NArith DecimalString.
Import ListNotations.
Open Scope string_scope.
Open Scope list_scope.
Open Scope nat_scope.

(* ================================================================== *)
(** * Python values, strings and exceptions *)
(* ================================================================== *)

Module Py.

(** The exception classes the code distinguishes ([except ValueError]
    against [except Exception]) or that its own operations raise. *)
Inductive exn_class :=
| ValueError | IndexError | AttributeError | ZeroDivisionError | Exception.

Record exn := mk_exn { class_of : exn_class; str_of : string }.

Inductive outcome (A : Type) :=
| Ok (a : A)
| Raise (e : exn).
Arguments Ok {A} a.
Arguments Raise {A} e.


Definition is_value_error (e : exn) : bool :=
  match class_of e with ValueError => true | _ => false end.

(** ** Characters *)

Definition between (lo n hi : nat) : bool := (lo <=? n) && (n <=? hi).

(** [str.isspace] on one character. *)
Definition isspace (c : ascii) : bool :=
  let n := nat_of_ascii c in
  between 9 n 13 || between 28 n 32 || (n =? 133) || (n =? 160).

(** [str.isalnum] on one character. *)
Definition isalnum (c : ascii) : bool :=
  let n := nat_of_ascii c in
  between 48 n 57 || between 65 n 90 || between 97 n 122
  || (n =? 170) || between 178 n 179 || (n =? 181) || between 185 n 186
  || between 188 n 190 || between 192 n 214 || between 216 n 246
  || between 248 n 255.

Definition lower_char (c : ascii) : ascii :=
  let n := nat_of_ascii c in
  if between 65 n 90 || between 192 n 214 || between 216 n 222
  then ascii_of_nat (n + 32) else c.

(** ** Strings *)

Fixpoint smap (f : ascii -> ascii) (s : string) : string :=
  match s with
  | EmptyString => EmptyString
  | String c s' => String (f c) (smap f s')
  end.

Fixpoint sfilter (p : ascii -> bool) (s : string) : string :=
  match s with
  | EmptyString => EmptyString
  | String c s' => if p c then String c (sfilter p s') else sfilter p s'
  end.

Fixpoint srev_onto (s acc : string) : string :=
  match s with
  | EmptyString => acc
  | String c s' => srev_onto s' (String c acc)
  end.

Definition srev (s : string) : string := srev_onto s EmptyString.

(** [s.lower()] *)
Definition lower (s : string) : string := smap lower_char s.

(** [s.lstrip()], [s.strip()] *)
Fixpoint lstrip (s : string) : string :=
  match s with
  | EmptyString => EmptyString
  | String c s' => if isspace c then lstrip s' else s
  end.

Definition rstrip (s : string) : string := srev (lstrip (srev s)).

Definition strip (s : string) : string := rstrip (lstrip s).

(** [bool(s)] for a string: non-empty. *)
Definition truthy (s : string) : bool :=
  match s with EmptyString => false | _ => true end.

(** [s.split()]: maximal runs of non-whitespace; [cur] is the run being
    read, reversed. *)
Fixpoint split_ws_go (cur : string) (s : string) : list string :=
  match s with
  | EmptyString => if truthy cur then [srev cur] else []
  | String c s' =>
      if isspace c
      then (if truthy cur then srev cur :: split_ws_go EmptyString s'
            else split_ws_go EmptyString s')
      else split_ws_go (String c cur) s'
  end.

Definition split_ws (s : string) : list string := split_ws_go EmptyString s.

(** [s.split(sep)] for a one-character separator: empty pieces are
    kept, and the result is never empty. *)
Fixpoint split_on_go (sep : ascii) (cur : string) (s : string) : list string :=
  match s with
  | EmptyString => [srev cur]
  | String c s' =>
      if Ascii.eqb c sep
      then srev cur :: split_on_go sep EmptyString s'
      else split_on_go sep (String c cur) s'
  end.

Definition split_on (sep : ascii) (s : string) : list string :=
  split_on_go sep EmptyString s.

(** [s.startswith(p)] *)
Definition startswith (p s : string) : bool := String.prefix p s.

(** [len(s)] *)
Definition len (s : string) : nat := String.length s.

(** [l.sort(key=key, reverse=True)]: the sort is stable, so of two items
    with the same key the one that stood first stays first.  An item is
    put in front of the first item of the sorted rest whose key is not
    greater than its own. *)
Fixpoint insert_reverse {A} (key : A -> nat) (x : A) (l : list A) : list A :=
  match l with
  | [] => [x]
  | y :: l' =>
      if key x <? key y then y :: insert_reverse key x l' else x :: l
  end.

Definition sort_reverse {A} (key : A -> nat) (l : list A) : list A :=
  fold_right (insert_reverse key) [] l.

(** Sequencing of two steps that may raise. *)
Definition and_then {A B} (o : outcome A) (k : A -> outcome B) : outcome B :=
  match o with
  | Ok a => k a
  | Raise e => Raise e
  end.

(** ** Dictionaries

    A Python dict iterates in the order its keys were first inserted,
    and the code depends on that order, so a dict with string keys is the
    list of its items in that order. *)
Definition dict (V : Type) : Type := list (string * V).

(** [d.get(k)] *)
Fixpoint dict_lookup {V} (d : dict V) (k : string) : option V :=
  match d with
  | [] => None
  | (k', v) :: d' => if String.eqb k' k then Some v else dict_lookup d' k
  end.

(** [d[k] = v]: an existing key keeps its place. *)
Fixpoint dict_set {V} (d : dict V) (k : string) (v : V) : dict V :=
  match d with
  | [] => [(k, v)]
  | (k', v') :: d' =>
      if String.eqb k' k then (k', v) :: d' else (k', v') :: dict_set d' k v
  end.

(** [dict(pairs)] *)
Definition dict_of {V} (pairs : list (string * V)) : dict V :=
  fold_left (fun d kv => dict_set d (fst kv) (snd kv)) pairs [].

(** [l[i]] for [i] within the non-negative range. *)
Definition index {A} (l : list A) (i : nat) : outcome A :=
  match nth_error l i with
  | Some a => Ok a
  | None => Raise (mk_exn IndexError "list index out of range")
  end.

(** [a] may stand before [b] in a list sorted by [key], greatest first. *)
Definition descending_by {A} (key : A -> nat) (a b : A) : Prop :=
  key b <= key a.

(** ** Computations on a mutable store that may raise

    The store a computation has written stays written when it raises:
    a Python [except] handler sees the globals and the objects as the
    failed block left them. *)
Definition M (S A : Type) : Type := S -> outcome A * S.

Definition ret {S A} (a : A) : M S A := fun s => (Ok a, s).

Definition raise {S A} (e : exn) : M S A := fun s => (Raise e, s).

Definition lift {S A} (o : outcome A) : M S A := fun s => (o, s).

Definition bind {S A B} (m : M S A) (k : A -> M S B) : M S B :=
  fun s =>
    match m s with
    | (Ok a, s') => k a s'
    | (Raise e, s') => (Raise e, s')
    end.

(** [try: m  except Exception as e: h e] *)
Definition try_except {S A} (m : M S A) (h : exn -> M S A) : M S A :=
  fun s =>
    match m s with
    | (Ok a, s') => (Ok a, s')
    | (Raise e, s') => h e s'
    end.

Definition get {S} : M S S := fun s => (Ok s, s).

Definition modify {S} (f : S -> S) : M S unit := fun s => (Ok tt, f s).

Definition when {S} (b : bool) (m : M S unit) : M S unit :=
  if b then m else ret tt.

Declare Scope py_scope.
Delimit Scope py_scope with py.
Notation "x <- m ;; k" := (bind m (fun x => k))
  (at level 61, m at next level, right associativity) : py_scope.
Notation "m ;; k" := (bind m (fun _ => k))
  (at level 61, right associativity) : py_scope.
Notation "' pat <- m ;; k" :=
  (bind m (fun x => match x with pat => k end))
  (at level 61, pat pattern, m at next level, right associativity) : py_scope.

End Py.

Import Py.

(* ================================================================== *)
(** * Lexical flagging: [detect_flagged_words_server] *)
(* ================================================================== *)

Module Flagging.

Inductive category :=
| profanity | sensitive | urgency | medical | positive | repetitive.

Inductive severity := high | medium | low.

(** One dictionary of the returned list:
    [{'word': .., 'category': .., 'frequency': .., 'severity': ..}]. *)
Record FlaggedWord := mk_flagged {
  word : string;
  category_of : category;
  frequency : nat;
  severity_of : severity
}.

(** [word_count]: the repetition pass walks it in insertion order. *)
Definition dict := Py.dict nat.

(** [d.get(k, 0)] *)
Definition dict_get (d : dict) (k : string) : nat :=
  match dict_lookup d k with Some v => v | None => 0 end.

(** [sum(d.values())] *)
Definition dict_sum (d : dict) : nat :=
  fold_left (fun acc kv => acc + snd kv) d 0.

(** [''.join(c for c in word if c.isalnum()).lower()] *)
Definition clean_word (w : string) : string := lower (sfilter isalnum w).

(** The body of the counting loop. *)
Definition count_word (wc : dict) (w : string) : dict :=
  let cw := clean_word w in
  if 2 <? len cw then dict_set wc cw (dict_get wc cw + 1) else wc.

Definition word_count (text : string) : dict :=
  fold_left count_word (split_ws (lower text)) [].

(** [flagged_categories], in the order the dict literal lists it. *)
Definition flagged_categories : list (category * list string) :=
  [ (profanity,
     ["damn"; "hell"; "shit"; "fuck"; "bitch"; "asshole"; "bastard"; "crap";
      "piss"; "dick"; "cock"; "pussy"; "tits"; "ass"; "cum"; "jerk"]);
    (sensitive,
     ["kill"; "death"; "die"; "dead"; "suicide"; "abuse"; "rape"; "violence";
      "hate"; "racist"; "sexist"; "discrimination"; "harassment"; "bullying"]);
    (urgency,
     ["emergency"; "urgent"; "crisis"; "critical"; "immediate"; "asap";
      "priority"; "important"; "attention"; "warning"; "alert"; "help";
      "problem"; "issue"; "trouble"; "worried"; "concerned"; "serious"]);
    (medical,
     ["pain"; "hurt"; "injury"; "illness"; "disease"; "sick"; "hospital";
      "doctor"; "medication"; "treatment"; "symptoms"; "diagnosis"; "health";
      "medicine"; "therapy"; "appointment"; "checkup"; "condition"]);
    (positive,
     ["happy"; "great"; "excellent"; "amazing"; "wonderful"; "fantastic";
      "awesome"; "brilliant"; "perfect"; "love"; "excited"; "thrilled";
      "delighted"; "pleased"; "satisfied"; "joy"; "cheerful"; "optimistic";
      "hopeful"; "grateful"; "thankful"; "blessed"; "proud"; "confident";
      "successful"; "achieved"; "accomplished"; "victory"; "win"; "celebrate";
      "good"; "nice"; "better"; "best"; "well"; "fine"; "okay"; "yes";
      "right"; "correct"; "true"; "sure"; "absolutely"; "definitely"]) ].

(** ['high' if category in ['profanity', 'sensitive']
     else 'medium' if category == 'urgency' else 'low'] *)
Definition category_severity (c : category) : severity :=
  match c with
  | profanity | sensitive => high
  | urgency => medium
  | _ => low
  end.

(** The lexicon pass: the two nested loops, appending to [flagged_words]. *)
Definition check_word (wc : dict) (c : category)
    (flagged : list FlaggedWord) (flagged_word : string) : list FlaggedWord :=
  match dict_lookup wc flagged_word with
  | Some n => flagged ++ [mk_flagged flagged_word c n (category_severity c)]
  | None => flagged
  end.

Definition check_category (wc : dict) (flagged : list FlaggedWord)
    (entry : category * list string) : list FlaggedWord :=
  fold_left (check_word wc (fst entry)) (snd entry) flagged.

Definition lexicon_pass (wc : dict) : list FlaggedWord :=
  fold_left (check_category wc) flagged_categories [].

(** [count / total_words]: true division raises on a zero divisor.  The
    quotient is kept exact, as the pair of its terms. *)
Definition true_div (count total : nat) : outcome (nat * nat) :=
  if total =? 0
  then Raise (mk_exn ZeroDivisionError "division by zero")
  else Ok (count, total).

(** [frequency > 0.05], on the exact quotient.  The binary64 quotient the
    interpreter compares orders the same way against the binary64 0.05
    for every total below 2^52. *)
Definition above_five_percent (q : nat * nat) : bool :=
  snd q <? 20 * fst q.

(** [any(fw['word'] == word for fw in flagged_words)] *)
Definition already_flagged (flagged : list FlaggedWord) (w : string) : bool :=
  existsb (fun fw => String.eqb (word fw) w) flagged.

(** The repetition pass over [word_count.items()]. *)
Fixpoint repetitive_pass (total_words : nat) (items : dict)
    (flagged : list FlaggedWord) : outcome (list FlaggedWord) :=
  match items with
  | [] => Ok flagged
  | (w, count) :: rest =>
      match true_div count total_words with
      | Raise e => Raise e
      | Ok freq =>
          if above_five_percent freq && (3 <? count)
          then
            if negb (already_flagged flagged w)
            then repetitive_pass total_words rest
                   (flagged ++ [mk_flagged w repetitive count low])
            else repetitive_pass total_words rest flagged
          else repetitive_pass total_words rest flagged
      end
  end.

(** [severity_order = {'high': 3, 'medium': 2, 'low': 1}] *)
Definition severity_order (s : severity) : nat :=
  match s with high => 3 | medium => 2 | low => 1 end.

Definition sort_key (fw : FlaggedWord) : nat := severity_order (severity_of fw).

(** The list as detected, before the final sort. *)
Definition detected (text : string) : outcome (list FlaggedWord) :=
  let wc := word_count text in
  repetitive_pass (dict_sum wc) wc (lexicon_pass wc).

Definition detect_flagged_words_server (text : string)
    : outcome (list FlaggedWord) :=
  match detected text with
  | Ok flagged_words => Ok (sort_reverse sort_key flagged_words)
  | Raise e => Raise e
  end.

(** ** Notions the properties are stated with *)

(** The lexicon read flat, as the nested loops visit it. *)
Definition lexicon : list (category * string) :=
  flat_map (fun entry => map (pair (fst entry)) (snd entry)) flagged_categories.

(** The category a word is listed under, if any. *)
Definition lexicon_category (w : string) : option category :=
  option_map fst (find (fun e => String.eqb (snd e) w) lexicon).

Definition severity_eqb (a b : severity) : bool :=
  severity_order a =? severity_order b.

(** [a] may stand before [b] in a list sorted by severity, highest first. *)
Definition not_less_severe : FlaggedWord -> FlaggedWord -> Prop :=
  descending_by sort_key.

(** The entries of a list that speak of word [w], or have severity [s]. *)
Definition entries_for (w : string) (l : list FlaggedWord) : list FlaggedWord :=
  filter (fun fw => String.eqb (word fw) w) l.

Definition entries_of_severity (s : severity) (l : list FlaggedWord)
    : list FlaggedWord :=
  filter (fun fw => severity_eqb (severity_of fw) s) l.

(** The repetition thresholds for a word counted [count] times. *)
Definition repeated (wc : dict) (count : nat) : bool :=
  above_five_percent (count, dict_sum wc) && (3 <? count).

(** What the counting loop maintains: no key twice, every count at
    least one. *)
Definition table_ok (d : dict) : Prop :=
  NoDup (map fst d) /\ Forall (fun kv => 1 <= snd kv) d.

(** What the lexicon pass appends for one listed word. *)
Definition emit (wc : dict) (e : category * string) : list FlaggedWord :=
  match dict_lookup wc (snd e) with
  | Some n => [mk_flagged (snd e) (fst e) n (category_severity (fst e))]
  | None => []
  end.

(** No string occurs twice in [l]. *)
Fixpoint distinct (l : list string) : bool :=
  match l with
  | [] => true
  | x :: l' => negb (existsb (String.eqb x) l') && distinct l'
  end.

(** The tokens the counting loop counts, as it counts them: cleaned, and
    longer than two characters. *)
Definition kept_tokens (text : string) : list string :=
  filter (fun cw => 2 <? len cw) (map clean_word (split_ws (lower text))).

(** The number of times [w] stands in [ws]. *)
Definition occurrences (w : string) (ws : list string) : nat :=
  length (filter (String.eqb w) ws).

(** What every entry of the output says of the text: its severity is the
    one of its category, its frequency is the number of tokens that
    clean to its word, and its word has more than two characters. *)
Definition entry_sound (text : string) (fw : FlaggedWord) : Prop :=
  severity_of fw = category_severity (category_of fw)
  /\ frequency fw = occurrences (word fw) (kept_tokens text)
  /\ 1 <= frequency fw
  /\ 2 < len (word fw).

Definition is_repetitive (c : category) : bool :=
  match c with repetitive => true | _ => false end.

(** What a repetitive entry says: its word passed both thresholds and is
    no word of the lexicon. *)
Definition repetitive_sound (text : string) (fw : FlaggedWord) : Prop :=
  is_repetitive (category_of fw) = true ->
  3 < frequency fw
  /\ length (kept_tokens text) < 20 * frequency fw
  /\ lexicon_category (word fw) = None.

End Flagging.


(* ================================================================== *)
(** * The collaborators of the service *)
(* ================================================================== *)

Module Lib.

(** A float the code only passes on ([float(span.score)]). *)
Definition score := Q.

(** How a capability is loaded: [Classifier.load], [SequenceTagger.load],
    [pipeline('zero-shot-classification', model=..)], and the same with
    [device=-1]. *)
Inductive loader := ClassifierLoad | SequenceTaggerLoad | Pipeline | PipelineCPU.

(** What it is loaded from: a file of the mount, or a model identifier
    the library fetches. *)
Inductive location := Path (p : string) | Name (n : string).

(** A loaded capability remembers what it was loaded from. *)
Inductive handle := Loaded (l : loader) (loc : location).

Record Label := mk_label { value : string; label_score : score }.

Record Span := mk_span { span_text : string; span_tag : string; span_score : score }.

(** The dict a zero-shot pipeline returns. *)
Record TopicOutput := mk_topic_output { labels : list string; scores : list score }.

(** A Flair [Sentence]: its tokens. *)
Definition Sentence := list string.

Inductive AudioEncoding := WEBM_OPUS.

(** The object [speech.SpeechClient()] returns. *)
Inductive SpeechClient := Client.

Record RecognitionConfig := mk_config {
  encoding : option AudioEncoding;
  sample_rate_hertz : option N;
  language_code : string;
  enable_automatic_punctuation : bool;
  model : string;
  use_enhanced : bool
}.

(** The behaviour of everything outside the repository. *)
Record World := mk_world {
  (* urllib.parse *)
  urlparse_path : string -> outcome string;
  unquote : string -> string;
  (* contractions.fix *)
  contractions_fix : string -> string;
  (* Path.exists *)
  path_exists : string -> bool;
  (* the model loaders: the exception a load ends in, if any *)
  load_error : loader -> location -> option exn;
  (* SegtokSentenceSplitter().split and Sentence(..) *)
  split_sentences : string -> outcome (list Sentence);
  make_sentence : string -> outcome Sentence;
  (* predict, and what the code then reads off the sentences:
     sentence.labels, s.get_spans('ner'), token.tag *)
  sentiment_predict : handle -> Sentence -> outcome (list Label);
  ner_predict : handle -> list Sentence -> outcome (list (list Span));
  pos_predict : handle -> Sentence -> outcome (list (option string));
  (* topic_classifier(clean, candidate_labels) *)
  topic_classify : handle -> string -> list string -> outcome TopicOutput;
  (* speech.SpeechClient() *)
  speech_client : outcome SpeechClient;
  (* speech.RecognitionAudio(uri=..) and speech.RecognitionConfig(..):
     the exception the constructor ends in, if any *)
  audio_error : string -> option exn;
  config_error : RecognitionConfig -> option exn;
  (* client.long_running_recognize(..).result(timeout=480): for each
     result the transcripts of its alternatives *)
  recognize : RecognitionConfig -> string -> outcome (list (list string));
  (* get_firebase_app(); auth.verify_id_token(token)['uid'] *)
  verify_id_token : string -> outcome string;
  (* os.environ.get('OPENAI_API_KEY') *)
  openai_api_key : option string;
  (* requests.get(url).raise_for_status(), then .content *)
  download : string -> outcome string;
  (* requests.post to the transcription API: status code and text *)
  whisper : string -> string -> outcome (nat * string)
}.

(** Calls to the collaborators that the properties speak of. *)
Inductive event :=
| Load (l : loader) (loc : location)
| Evict (path : string)
| Recognize (config : RecognitionConfig) (uri : string).

(** The module-level variables of a deployment, and the calls made so
    far ([trace] is not a variable of the code: it records them).  The
    alternate deployment has no [_speech_client]: it leaves that field
    as it finds it. *)
Record Globals := mk_globals {
  _sentiment_model : option handle;
  _ner_model : option handle;
  _pos_model : option handle;
  _topic_classifier : option handle;
  _speech_client : option SpeechClient;
  trace : list event
}.

Definition cold : Globals := mk_globals None None None None None [].

(** [g] after further calls. *)
Definition logged (g : Globals) (events : list event) : Globals :=
  mk_globals (_sentiment_model g) (_ner_model g) (_pos_model g)
    (_topic_classifier g) (_speech_client g) (trace g ++ events).

Definition log (e : event) : M Globals unit :=
  modify (fun g => mk_globals (_sentiment_model g) (_ner_model g)
                     (_pos_model g) (_topic_classifier g) (_speech_client g)
                     (trace g ++ [e])).

Definition set_sentiment_model (h : option handle) : M Globals unit :=
  modify (fun g => mk_globals h (_ner_model g) (_pos_model g)
                     (_topic_classifier g) (_speech_client g) (trace g)).

Definition set_ner_model (h : option handle) : M Globals unit :=
  modify (fun g => mk_globals (_sentiment_model g) h (_pos_model g)
                     (_topic_classifier g) (_speech_client g) (trace g)).

Definition set_pos_model (h : option handle) : M Globals unit :=
  modify (fun g => mk_globals (_sentiment_model g) (_ner_model g) h
                     (_topic_classifier g) (_speech_client g) (trace g)).

Definition set_topic_classifier (h : option handle) : M Globals unit :=
  modify (fun g => mk_globals (_sentiment_model g) (_ner_model g)
                     (_pos_model g) h (_speech_client g) (trace g)).

Definition set_speech_client (c : option SpeechClient) : M Globals unit :=
  modify (fun g => mk_globals (_sentiment_model g) (_ner_model g)
                     (_pos_model g) (_topic_classifier g) c (trace g)).

(** [g] with a speech client. *)
Definition connected (g : Globals) (c : SpeechClient) : Globals :=
  mk_globals (_sentiment_model g) (_ner_model g) (_pos_model g)
    (_topic_classifier g) (Some c) (trace g).

(** The tuple [get_models] returns. *)
Definition models : Type :=
  option handle * option handle * option handle * option handle.

Definition cached (g : Globals) : models :=
  (_sentiment_model g, _ner_model g, _pos_model g, _topic_classifier g).

Definition is_none {A} (o : option A) : bool :=
  match o with None => true | Some _ => false end.

Local Open Scope py_scope.

(** One call of a loader. *)
Definition load (w : World) (l : loader) (loc : location) : M Globals handle :=
  log (Load l loc) ;;
  match load_error w l loc with
  | Some e => raise e
  | None => ret (Loaded l loc)
  end.

(** A constructor of a library: the object, unless it raises. *)
Definition construct {A} (error : option exn) (a : A) : outcome A :=
  match error with
  | Some e => Raise e
  | None => Ok a
  end.

(** [model.predict(..)] on a variable that may hold [None]. *)
Definition call_on {A} (h : option handle) (call : handle -> outcome A)
    : outcome A :=
  match h with
  | Some m => call m
  | None =>
      Raise (mk_exn AttributeError
               "'NoneType' object has no attribute 'predict'")
  end.

Definition on_handle {S A} (h : option handle) (call : handle -> outcome A)
    : M S A :=
  lift (call_on h call).

(** What a stage that catches its failure leaves in its slot of the
    result: its payload, or what the slot held. *)
Definition stored {A} (o : outcome A) (default : A) : A :=
  match o with
  | Ok a => a
  | Raise _ => default
  end.

(** The entry a failed stage leaves in [errors]; none when it succeeds. *)
Definition recorded {A} (stage : string) (o : outcome A) : list string :=
  match o with
  | Ok _ => []
  | Raise e => [(stage ++ " failed: " ++ str_of e)%string]
  end.

(** The value passed for [transcription]. *)
Inductive pyval := PyNone | PyStr (s : string) | PyOther.

Definition candidate_labels : list string :=
  ["politics"; "finance"; "technology"; "health"; "sports"; "education"].

Record Entity := mk_entity { text : string; label : string; entity_score : score }.

Definition entity_of (sp : Span) : Entity :=
  mk_entity (span_text sp) (span_tag sp) (span_score sp).

(** [{'primary': .., 'scores': ..}] *)
Record Topics := mk_topics { primary : string; topic_scores : dict score }.

(** The topic stage proper: the call and the reading of its result. *)
Definition classify_topics (w : World) (m : handle) (clean : string)
    : outcome Topics :=
  match topic_classify w m clean candidate_labels with
  | Raise e => Raise e
  | Ok topic_result =>
      match index (labels topic_result) 0 with
      | Raise e => Raise e
      | Ok first =>
          Ok (mk_topics first
                (dict_of (combine (labels topic_result) (scores topic_result))))
      end
  end.

(** [tag.split('-')[0]] *)
Definition base_tag (tag : string) : string :=
  match split_on "-" tag with
  | base :: _ => base
  | [] => tag
  end.

(** [sentence.labels[0].value if sentence.labels else 'neutral'] *)
Definition label_or_neutral (sentence_labels : list Label) : string :=
  match sentence_labels with l :: _ => value l | [] => "neutral" end.

(** [str(n)] *)
Definition str_of_nat (n : nat) : string :=
  NilZero.string_of_uint (Nat.to_uint n).

(** [pos_counts[base] = pos_counts.get(base, 0) + 1] *)
Definition count_tag (pos_counts : dict nat) (base : string) : dict nat :=
  dict_set pos_counts base
    (match dict_lookup pos_counts base with Some n => n | None => 0 end + 1).

(** Every capability cached in [g] is cached, the same, in [g']. *)
Definition keeps (g g' : Globals) : Prop :=
  (forall m, _sentiment_model g = Some m -> _sentiment_model g' = Some m)
  /\ (forall m, _ner_model g = Some m -> _ner_model g' = Some m)
  /\ (forall m, _pos_model g = Some m -> _pos_model g' = Some m)
  /\ (forall m, _topic_classifier g = Some m -> _topic_classifier g' = Some m).

(** The calls recorded in [g] are the first calls recorded in [g']. *)
Definition later (g g' : Globals) : Prop :=
  exists calls, trace g' = trace g ++ calls.

End Lib.

(* ================================================================== *)
(** * The primary deployment: [functions/main.py] *)
(* ================================================================== *)

Module Main.
Import Lib.
Local Open Scope py_scope.

Definition MOUNT_PATH : string := "/mnt/models".
Definition SENTIMENT_MODEL_PATH : string := "/mnt/models/sentiment.pt".
Definition NER_MODEL_PATH : string := "/mnt/models/ner-fast.pt".
Definition POS_MODEL_PATH : string := "/mnt/models/pos-english.pt".
Definition TOPIC_MODEL_PATH : string := "/mnt/models/bart-large-mnli".

(** [flair.cache_root / 'models' / 'pos-english'] *)
Definition pos_cache_dir : string := "/tmp/models/pos-english".

(** ** [get_models] *)

Definition acquire_sentiment (w : World) : M Globals unit :=
  g <- get ;;
  when (is_none (_sentiment_model g))
    ((if path_exists w SENTIMENT_MODEL_PATH
      then m <- load w ClassifierLoad (Path SENTIMENT_MODEL_PATH) ;;
           set_sentiment_model (Some m)
      else ret tt) ;;
     (* the statement after the [if]/[else], at the level of the [if] *)
     m <- load w ClassifierLoad (Name "sentiment") ;;
     set_sentiment_model (Some m)).

Definition acquire_ner (w : World) : M Globals unit :=
  g <- get ;;
  when (is_none (_ner_model g))
    (if path_exists w NER_MODEL_PATH
     then m <- load w SequenceTaggerLoad (Path NER_MODEL_PATH) ;;
          set_ner_model (Some m)
     else m <- load w SequenceTaggerLoad (Name "ner") ;;
          set_ner_model (Some m)).

Definition acquire_pos (w : World) : M Globals unit :=
  g <- get ;;
  when (is_none (_pos_model g))
    (if path_exists w POS_MODEL_PATH
     then m <- load w SequenceTaggerLoad (Path POS_MODEL_PATH) ;;
          set_pos_model (Some m)
     else
       when (path_exists w pos_cache_dir) (log (Evict pos_cache_dir)) ;;
       try_except
         (m <- load w SequenceTaggerLoad (Name "pos") ;;
          set_pos_model (Some m))
         (fun _ => set_pos_model None)).

Definition acquire_topic (w : World) : M Globals unit :=
  g <- get ;;
  when (is_none (_topic_classifier g))
    (if path_exists w TOPIC_MODEL_PATH
     then m <- load w Pipeline (Path TOPIC_MODEL_PATH) ;;
          set_topic_classifier (Some m)
     else
       try_except
         (m <- load w Pipeline (Name "facebook/bart-large-mnli") ;;
          set_topic_classifier (Some m))
         (fun _ => set_topic_classifier None)).

Definition get_models (w : World) : M Globals models :=
  try_except
    (acquire_sentiment w ;;
     acquire_ner w ;;
     acquire_pos w ;;
     acquire_topic w ;;
     g <- get ;;
     ret (cached g))
    (fun e => raise e).



(** ** [convert_to_gs_uri] *)

Definition storage_host : string := "https://firebasestorage.googleapis.com".

Definition convert_to_gs_uri (w : World) (http_url : string) : string :=
  if negb (truthy http_url) || negb (startswith storage_host http_url)
  then http_url
  else
    match
      (match urlparse_path w http_url with
       | Raise e => Raise e
       | Ok path =>
           let path_parts := split_on "/" path in
           if (5 <? length path_parts)
              && String.eqb (nth 2 path_parts "") "b"
              && String.eqb (nth 4 path_parts "") "o"
           then
             let bucket := nth 3 path_parts "" in
             let object_path := unquote w (nth 5 path_parts "") in
             Ok (Some ("gs://" ++ bucket ++ "/" ++ object_path)%string)
           else Ok None
       end)
    with
    | Ok (Some gs_uri) => gs_uri
    | Ok None => http_url
    | Raise _ => http_url
    end.

(** The locators the rewrite applies to: those of the storage host whose
    path reads [/<version>/b/<bucket>/o/<object path>]. *)
Definition web_facing (w : World) (url : string) : bool :=
  startswith storage_host url
  && match urlparse_path w url with
     | Ok path =>
         match split_on "/" path with
         | _ :: _ :: "b" :: _ :: "o" :: _ :: _ => true
         | _ => false
         end
     | Raise _ => false
     end.

(** ** [transcribe_gcs] *)

Definition webm_config : RecognitionConfig :=
  mk_config (Some WEBM_OPUS) (Some 48000%N) "en-US" true "latest_long" true.

Definition generic_config : RecognitionConfig :=
  mk_config None None "en-US" true "latest_long" true.

(** [for result in response.results:
       transcript += result.alternatives[0].transcript + " "] *)
Fixpoint join_transcripts (results : list (list string)) (transcript : string)
    : outcome string :=
  match results with
  | [] => Ok transcript
  | alternatives :: rest =>
      match index alternatives 0 with
      | Raise e => Raise e
      | Ok first => join_transcripts rest (transcript ++ first ++ " ")%string
      end
  end.

(** What one [try] block computes: the recognition and the reading of
    its response. *)
Definition recognition (w : World) (config : RecognitionConfig) (uri : string)
    : outcome string :=
  match recognize w config uri with
  | Raise e => Raise e
  | Ok results =>
      match join_transcripts results "" with
      | Raise e => Raise e
      | Ok transcript => Ok (strip transcript)
      end
  end.

(** [client.long_running_recognize(config=config, audio=audio)] and the
    reading of its response; the provider of [w] answers for [client]. *)
Definition attempt (w : World) (client : SpeechClient)
    (config : RecognitionConfig) (audio : string) : M Globals string :=
  log (Recognize config audio) ;;
  lift (recognition w config audio).

(** [get_speech_client]: the client is made at the first call and kept. *)
Definition get_speech_client (w : World) : M Globals SpeechClient :=
  g <- get ;;
  match _speech_client g with
  | Some client => ret client
  | None =>
      client <- lift (speech_client w) ;;
      set_speech_client (Some client) ;;
      ret client
  end.

Definition transcribe_gcs (w : World) (gcs_uri : string) : M Globals string :=
  let gcs_uri := convert_to_gs_uri w gcs_uri in
  client <- get_speech_client w ;;
  audio <- lift (construct (audio_error w gcs_uri) gcs_uri) ;;
  config <- lift (construct (config_error w webm_config) webm_config) ;;
  try_except
    (attempt w client config audio)
    (fun _ =>
       try_except
         (config <- lift (construct (config_error w generic_config)
                            generic_config) ;;
          attempt w client config audio)
         (fun e2 => raise e2)).



(** ** [analyze_transcription] *)

Record Stats := mk_stats { words : nat; sentences : nat; chars : nat }.

Record AnalysisResult := mk_result {
  success : bool;
  sentiment_label : string;
  sentiment_score : score;
  entities : list Entity;
  pos : dict nat;
  topics : Topics;
  stats : Stats
}.

Definition unavailable_topics : Topics := mk_topics "unavailable" [].

(** The counting loop over the tokens: [if token.tag:] skips a token
    without a tag. *)
Definition count_tagged (pos_counts : dict nat) (tag : option string)
    : dict nat :=
  match tag with
  | Some t => if truthy t then count_tag pos_counts (base_tag t) else pos_counts
  | None => pos_counts
  end.

(** The tags of a sentence no tagger has run on, or on which it failed:
    none. *)
Definition untagged (sentence : Sentence) : list (option string) :=
  map (fun _ => None) sentence.

Definition invalid_input : exn :=
  mk_exn ValueError "Invalid transcription input".

Definition empty_after_cleaning : exn :=
  mk_exn ValueError "Empty transcription after cleaning".

Definition analyze_transcription (w : World) (transcription : pyval)
    : M Globals AnalysisResult :=
  try_except
    (match transcription with
     | PyNone | PyOther => raise invalid_input
     | PyStr raw =>
         if negb (truthy raw) then raise invalid_input else
         let clean := contractions_fix w (strip raw) in
         if negb (truthy clean) then raise empty_after_cleaning else
         '(sentiment_model, ner_model, pos_model, topic_classifier)
            <- get_models w ;;
         sentences <- lift (split_sentences w clean) ;;
         sentence <- lift (make_sentence w clean) ;;
         sentence_labels
            <- on_handle sentiment_model
                 (fun m => sentiment_predict w m sentence) ;;
         spans <- on_handle ner_model (fun m => ner_predict w m sentences) ;;
         tags <- match pos_model with
                 | Some m =>
                     try_except (lift (pos_predict w m sentence))
                       (fun _ => ret (untagged sentence))
                 | None => ret (untagged sentence)
                 end ;;
         topics <- match topic_classifier with
                   | Some m =>
                       try_except (lift (classify_topics w m clean))
                         (fun _ => ret unavailable_topics)
                   | None => ret unavailable_topics
                   end ;;
         let sentiment_label := label_or_neutral sentence_labels in
         let sentiment_score :=
           match sentence_labels with l :: _ => label_score l | [] => 0%Q end in
         let pos_counts :=
           if is_none pos_model then []
           else fold_left count_tagged tags [] in
         let entities := map entity_of (concat spans) in
         ret (mk_result true sentiment_label sentiment_score entities
                pos_counts topics
                (mk_stats (length sentence) (length sentences) (len clean)))
     end)
    (fun e => raise e).

(** What the two guarded stages leave behind: the tags of the tokens and
    the topics, whether the stage ran, failed or was skipped. *)
Definition pos_tags (w : World) (pos_model : option handle)
    (sentence : Sentence) : list (option string) :=
  match pos_model with
  | Some m => stored (pos_predict w m sentence) (untagged sentence)
  | None => untagged sentence
  end.

Definition pos_counts_of (w : World) (pos_model : option handle)
    (sentence : Sentence) : dict nat :=
  if is_none pos_model then []
  else fold_left count_tagged (pos_tags w pos_model sentence) [].

Definition topics_of (w : World) (topic_classifier : option handle)
    (clean : string) : Topics :=
  match topic_classifier with
  | Some m => stored (classify_topics w m clean) unavailable_topics
  | None => unavailable_topics
  end.

(** The result of the analysis when nothing outside the two guarded
    stages fails. *)
Definition analysed (w : World) (ms : models) (clean : string)
    (sentences : list Sentence) (sentence : Sentence)
    (sentence_labels : list Label) (spans : list (list Span))
    : AnalysisResult :=
  let '(_, _, pos_model, topic_classifier) := ms in
  mk_result true (label_or_neutral sentence_labels)
    (match sentence_labels with l :: _ => label_score l | [] => 0%Q end)
    (map entity_of (concat spans))
    (pos_counts_of w pos_model sentence)
    (topics_of w topic_classifier clean)
    (mk_stats (length sentence) (length sentences) (len clean)).



(** ** [nlp_analyze] *)

(** The request as the function reads it: the method, the Authorization
    header, whether the body is JSON, and the two fields of the body
    (['' ] when absent). *)
Record Request := mk_request {
  method : string;
  authorization : option string;
  is_json : bool;
  transcription : string;
  audioUrl : string
}.

Inductive body :=
| Preflight
| ErrorBody (error : string)
| NoSpeech (transcribed : string) (error : string)
| Analysis (transcribed : option string) (analysis : AnalysisResult)
    (user_id : string).

Definition response : Type := body * nat.

(** [if text: .. else: ..], the end of the [try] block. *)
Definition analyze_text (w : World) (uid : string) (transcribed : option string)
    (text : string) : M Globals response :=
  if truthy text
  then analysis <- analyze_transcription w (PyStr text) ;;
       ret (Analysis transcribed analysis uid, 200)
  else ret (ErrorBody "No text provided and no audio to transcribe", 400).

(** The two [except] clauses of the function. *)
Definition on_error (e : exn) : M Globals response :=
  if is_value_error e
  then ret (ErrorBody (str_of e), 400)
  else ret (ErrorBody "Internal server error", 500).

(** A request that passes the checks before its text is looked at, for
    the user [uid]. *)
Definition authenticated (w : World) (request : Request) (uid : string) : Prop :=
  String.eqb (method request) "OPTIONS" = false
  /\ is_json request = true
  /\ exists auth_header token,
       authorization request = Some auth_header
       /\ startswith "Bearer " auth_header = true
       /\ index (split_on " " auth_header) 1 = Ok token
       /\ verify_id_token w token = Ok uid.

Definition nlp_analyze (w : World) (request : Request) : M Globals response :=
  if String.eqb (method request) "OPTIONS" then ret (Preflight, 204) else
  try_except
    (match authorization request with
     | None => ret (ErrorBody "Unauthorized", 401)
     | Some auth_header =>
         if negb (truthy auth_header) || negb (startswith "Bearer " auth_header)
         then ret (ErrorBody "Unauthorized", 401)
         else
           token <- lift (index (split_on " " auth_header) 1) ;;
           uid <- lift (verify_id_token w token) ;;
           if negb (is_json request)
           then ret (ErrorBody "JSON required", 400)
           else
             let text := strip (transcription request) in
             let audio_uri := strip (audioUrl request) in
             if truthy audio_uri
             then
               transcribed <-
                 try_except
                   (text <- transcribe_gcs w audio_uri ;;
                    if negb (truthy text)
                    then ret (inl (NoSpeech text "Transcription yielded no text",
                                   200))
                    else ret (inr text))
                   (fun e =>
                      ret (inl (ErrorBody ("Transcription failed: " ++ str_of e)%string,
                                500))) ;;
               match transcribed with
               | inl early => ret early
               | inr text => analyze_text w uid (Some text) text
               end
             else analyze_text w uid None text
     end)
    on_error.

(** ** Further notions *)

(** A result of the provider without any alternative. *)
Definition no_alternative (result : list string) : bool :=
  match result with [] => true | _ :: _ => false end.

(** The first alternative of every result, each followed by a space. *)
Definition first_alternatives (results : list (list string)) : string :=
  String.concat "" (map (fun result => (hd "" result ++ " ")%string) results).

(** The status codes [nlp_analyze] answers with. *)
Definition statuses : list nat := [200; 204; 400; 401; 500].

(** The tokens a tagger has given a non-empty tag. *)
Definition tagged (tags : list (option string)) : list string :=
  flat_map (fun tag => match tag with
                       | Some t => if truthy t then [t] else []
                       | None => []
                       end) tags.

(** The text passed for [transcription] is missing, no string, empty, or
    emptied by normalization. *)
Definition normalizes_to_nothing (w : World) (transcription : pyval) : bool :=
  match transcription with
  | PyStr raw =>
      negb (truthy raw) || negb (truthy (contractions_fix w (strip raw)))
  | _ => true
  end.

End Main.

(* ================================================================== *)
(** * The alternate deployment: [functions/nlp_processor_gcf.py] *)
(* ================================================================== *)

Module Gcf.
Import Lib.
Local Open Scope py_scope.

(** ** [get_models] *)

(** [if _x is None: _x = loader(name)] *)
Definition acquire (current : Globals -> option handle)
    (store : option handle -> M Globals unit)
    (w : World) (l : loader) (loc : location) : M Globals unit :=
  g <- get ;;
  when (is_none (current g)) (m <- load w l loc ;; store (Some m)).

Definition bart : location := Name "facebook/bart-large-mnli".

Definition fast_chain (w : World) : M Globals unit :=
  acquire _sentiment_model set_sentiment_model w ClassifierLoad
    (Name "sentiment-fast") ;;
  acquire _ner_model set_ner_model w ClassifierLoad (Name "ner-fast") ;;
  acquire _pos_model set_pos_model w SequenceTaggerLoad (Name "pos-fast") ;;
  acquire _topic_classifier set_topic_classifier w PipelineCPU bart.

Definition fallback_chain (w : World) : M Globals unit :=
  acquire _sentiment_model set_sentiment_model w ClassifierLoad
    (Name "sentiment") ;;
  acquire _ner_model set_ner_model w ClassifierLoad (Name "ner") ;;
  acquire _pos_model set_pos_model w SequenceTaggerLoad (Name "pos") ;;
  acquire _topic_classifier set_topic_classifier w Pipeline bart.

Definition get_models (w : World) : M Globals models :=
  try_except
    (fast_chain w ;; g <- get ;; ret (cached g))
    (fun e =>
       try_except
         (fallback_chain w ;; g <- get ;; ret (cached g))
         (fun _ => raise e)).

(** What the fallback chain makes of a variable, and the call it makes
    for it. *)
Definition kept_or (cached : option handle) (l : loader) (loc : location)
    : option handle :=
  match cached with
  | Some m => Some m
  | None => Some (Loaded l loc)
  end.

Definition needed (cached : option handle) (l : loader) (loc : location)
    : list event :=
  if is_none cached then [Load l loc] else [].

(** The state the fallback chain ends in when its loads succeed. *)
Definition after_fallback (g : Globals) : Globals :=
  mk_globals
    (kept_or (_sentiment_model g) ClassifierLoad (Name "sentiment"))
    (kept_or (_ner_model g) ClassifierLoad (Name "ner"))
    (kept_or (_pos_model g) SequenceTaggerLoad (Name "pos"))
    (kept_or (_topic_classifier g) Pipeline bart)
    (_speech_client g)
    (trace g
     ++ needed (_sentiment_model g) ClassifierLoad (Name "sentiment")
     ++ needed (_ner_model g) ClassifierLoad (Name "ner")
     ++ needed (_pos_model g) SequenceTaggerLoad (Name "pos")
     ++ needed (_topic_classifier g) Pipeline bart).


(** ** [transcribe_audio] *)

Definition transcribe_audio (w : World) (audio_url : string) : outcome string :=
  match openai_api_key w with
  | None =>
      Raise (mk_exn ValueError "OPENAI_API_KEY environment variable not set")
  | Some key =>
      if negb (truthy key)
      then Raise (mk_exn ValueError
                    "OPENAI_API_KEY environment variable not set")
      else
        match download w audio_url with
        | Raise e => Raise e
        | Ok content =>
            match whisper w key content with
            | Raise e => Raise e
            | Ok (status_code, response_text) =>
                if status_code =? 200 then Ok (strip response_text)
                else Raise (mk_exn Exception
                              ("Whisper API error: " ++ str_of_nat status_code
                               ++ " - " ++ response_text)%string)
            end
        end
  end.

(** ** [analyze_transcription] *)

Record AnalysisResult := mk_result {
  success : bool;
  sentiment : string;
  entities : list Entity;
  pos : dict nat;
  topics : Topics;
  word_count : nat;
  sentence_count : nat;
  char_count : nat;
  errors : list string;
  flagged_words : option (list Flagging.FlaggedWord)
}.

Definition general_topics : Topics := mk_topics "general" [].

(** The dict the function starts from (it has no ['flagged_words'] key
    yet). *)
Definition initial_result : AnalysisResult :=
  mk_result false "neutral" [] [] general_topics 0 0 0 [] None.

(** What the body of the function works on: the module-level variables,
    the [result] dict, and the local variable [sentence], which two
    stages share. *)
Record Frame := mk_frame {
  globals : Globals;
  result : AnalysisResult;
  sentence : option Sentence
}.

Definition update_result (f : AnalysisResult -> AnalysisResult) : M Frame unit :=
  modify (fun fr => mk_frame (globals fr) (f (result fr)) (sentence fr)).

Definition set_sentence (s : Sentence) : M Frame unit :=
  modify (fun fr => mk_frame (globals fr) (result fr) (Some s)).

(** A computation on the module-level variables, run inside the body. *)
Definition on_globals {A} (m : M Globals A) : M Frame A :=
  fun fr =>
    let '(o, g) := m (globals fr) in
    (o, mk_frame g (result fr) (sentence fr)).

(** [result['errors'].append(msg)] *)
Definition append_error (msg : string) : M Frame unit :=
  update_result (fun r =>
    mk_result (success r) (sentiment r) (entities r) (pos r) (topics r)
      (word_count r) (sentence_count r) (char_count r)
      (errors r ++ [msg]) (flagged_words r)).

Definition set_success (b : bool) : M Frame unit :=
  update_result (fun r =>
    mk_result b (sentiment r) (entities r) (pos r) (topics r)
      (word_count r) (sentence_count r) (char_count r)
      (errors r) (flagged_words r)).

Definition set_sentiment (s : string) : M Frame unit :=
  update_result (fun r =>
    mk_result (success r) s (entities r) (pos r) (topics r)
      (word_count r) (sentence_count r) (char_count r)
      (errors r) (flagged_words r)).

Definition set_entities (es : list Entity) : M Frame unit :=
  update_result (fun r =>
    mk_result (success r) (sentiment r) es (pos r) (topics r)
      (word_count r) (sentence_count r) (char_count r)
      (errors r) (flagged_words r)).

Definition set_pos (p : dict nat) : M Frame unit :=
  update_result (fun r =>
    mk_result (success r) (sentiment r) (entities r) p (topics r)
      (word_count r) (sentence_count r) (char_count r)
      (errors r) (flagged_words r)).

Definition set_topics (t : Topics) : M Frame unit :=
  update_result (fun r =>
    mk_result (success r) (sentiment r) (entities r) (pos r) t
      (word_count r) (sentence_count r) (char_count r)
      (errors r) (flagged_words r)).

Definition set_statistics (nwords nsentences nchars : nat) : M Frame unit :=
  update_result (fun r =>
    mk_result (success r) (sentiment r) (entities r) (pos r) (topics r)
      nwords nsentences nchars (errors r) (flagged_words r)).

Definition set_flagged_words (fl : list Flagging.FlaggedWord) : M Frame unit :=
  update_result (fun r =>
    mk_result (success r) (sentiment r) (entities r) (pos r) (topics r)
      (word_count r) (sentence_count r) (char_count r)
      (errors r) (Some fl)).

(** [if sentence is None: sentence = Sentence(clean)] *)
Definition the_sentence (w : World) (clean : string) : M Frame Sentence :=
  fr <- get ;;
  match sentence fr with
  | Some s => ret s
  | None => s <- lift (make_sentence w clean) ;; set_sentence s ;; ret s
  end.

Definition sentiment_stage (w : World) (sentiment_model : option handle)
    (clean : string) : M Frame unit :=
  try_except
    (s <- the_sentence w clean ;;
     sentence_labels
       <- on_handle sentiment_model (fun m => sentiment_predict w m s) ;;
     set_sentiment (label_or_neutral sentence_labels))
    (fun e => append_error ("Sentiment failed: " ++ str_of e)%string).

Definition ner_stage (w : World) (ner_model : option handle) (clean : string)
    : M Frame unit :=
  try_except
    (sentences_list <- lift (split_sentences w clean) ;;
     spans <- on_handle ner_model (fun m => ner_predict w m sentences_list) ;;
     set_entities (map entity_of (concat spans)))
    (fun e => append_error ("NER failed: " ++ str_of e)%string).

(** The counting loop: [tag.split] raises on a token whose tag is [None]. *)
Fixpoint count_tags (tags : list (option string)) (pos_counts : dict nat)
    : outcome (dict nat) :=
  match tags with
  | [] => Ok pos_counts
  | Some tag :: rest => count_tags rest (count_tag pos_counts (base_tag tag))
  | None :: _ =>
      Raise (mk_exn AttributeError
               "'NoneType' object has no attribute 'split'")
  end.

Definition pos_stage (w : World) (pos_model : option handle) (clean : string)
    : M Frame unit :=
  try_except
    (s <- the_sentence w clean ;;
     tags <- on_handle pos_model (fun m => pos_predict w m s) ;;
     pos_counts <- lift (count_tags tags []) ;;
     set_pos pos_counts)
    (fun e => append_error ("POS failed: " ++ str_of e)%string).

Definition topic_stage (w : World) (topic_classifier : option handle)
    (clean : string) : M Frame unit :=
  try_except
    (t <- on_handle topic_classifier (fun m => classify_topics w m clean) ;;
     set_topics t)
    (fun e => append_error ("Topic failed: " ++ str_of e)%string).

Definition flagging_stage (clean : string) : M Frame unit :=
  try_except
    (fl <- lift (Flagging.detect_flagged_words_server clean) ;;
     set_flagged_words fl)
    (fun e =>
       append_error ("Flagged words failed: " ++ str_of e)%string ;;
       set_flagged_words []).

(** [len([s for s in clean.split('.') if s.strip()])] *)
Definition count_sentences (clean : string) : nat :=
  length (filter (fun s => truthy (strip s)) (split_on "." clean)).

(** The first [if] of the function: no usable text was passed. *)
Definition lacks_text (transcription : pyval) : bool :=
  match transcription with
  | PyStr s => negb (truthy s) || negb (truthy (strip s))
  | _ => true
  end.

Definition no_text_available : exn :=
  mk_exn ValueError
    "No transcription text available and audio transcription failed".

(** The first step of the body: the transcription to go on with. *)
Definition resolve_text (w : World) (transcription : pyval)
    (audio_url : option string) : M Frame pyval :=
  match audio_url with
  | Some url =>
      if lacks_text transcription && truthy url
      then
        try_except
          (t <- lift (transcribe_audio w url) ;; ret (PyStr t))
          (fun audio_error =>
             append_error
               ("Audio transcription failed: " ++ str_of audio_error)%string ;;
             raise no_text_available)
      else ret transcription
  | None => ret transcription
  end.

(** The statements of the [try] block, up to its [return result]. *)
Definition body (w : World) (transcription : pyval) (audio_url : option string)
    : M Frame unit :=
  transcription <- resolve_text w transcription audio_url ;;
  match transcription with
  | PyNone | PyOther => raise Main.invalid_input
  | PyStr raw =>
      if negb (truthy raw) then raise Main.invalid_input else
      let clean := contractions_fix w (strip raw) in
      if negb (truthy clean) then raise Main.empty_after_cleaning else
      set_statistics (length (split_ws clean)) (count_sentences clean)
        (len clean) ;;
      loaded <-
        try_except
          (ms <- on_globals (get_models w) ;; ret (Some ms))
          (fun model_error =>
             append_error
               ("Model loading failed: " ++ str_of model_error)%string ;;
             set_success true ;;
             ret None) ;;
      match loaded with
      | None => ret tt
      | Some (sentiment_model, ner_model, pos_model, topic_classifier) =>
          sentiment_stage w sentiment_model clean ;;
          ner_stage w ner_model clean ;;
          pos_stage w pos_model clean ;;
          topic_stage w topic_classifier clean ;;
          flagging_stage clean ;;
          set_success true
      end
  end.

Definition analyze_transcription (w : World) (transcription : pyval)
    (audio_url : option string) : M Globals AnalysisResult :=
  fun g =>
    let '(o, fr) :=
      try_except
        (body w transcription audio_url ;; fr <- get ;; ret (result fr))
        (fun e =>
           append_error ("Critical error: " ++ str_of e)%string ;;
           fr <- get ;; ret (result fr))
        (mk_frame g initial_result None) in
    (o, globals fr).

(** ** Notions the properties are stated with *)

(** What each inference stage computes on its own, from the text and its
    capability: the payload it stores, or the exception it ends in. *)
Definition sentiment_outcome (w : World) (m : option handle) (clean : string)
    : outcome string :=
  and_then (make_sentence w clean) (fun s =>
  and_then (call_on m (fun h => sentiment_predict w h s)) (fun ls =>
  Ok (label_or_neutral ls))).

Definition ner_outcome (w : World) (m : option handle) (clean : string)
    : outcome (list Entity) :=
  and_then (split_sentences w clean) (fun ss =>
  and_then (call_on m (fun h => ner_predict w h ss)) (fun spans =>
  Ok (map entity_of (concat spans)))).

Definition pos_outcome (w : World) (m : option handle) (clean : string)
    : outcome (dict nat) :=
  and_then (make_sentence w clean) (fun s =>
  and_then (call_on m (fun h => pos_predict w h s)) (fun tags =>
  count_tags tags [])).

Definition topic_outcome (w : World) (m : option handle) (clean : string)
    : outcome Topics :=
  call_on m (fun h => classify_topics w h clean).

(** The local variable [sentence] holds nothing but [Sentence(clean)]. *)
Definition sentence_of (w : World) (clean : string) (fr : Frame) : Prop :=
  sentence fr = None
  \/ exists s, sentence fr = Some s /\ make_sentence w clean = Ok s.

Definition cache_sentence (w : World) (clean : string) (fr : Frame)
    : option Sentence :=
  match make_sentence w clean with
  | Ok s => Some s
  | Raise _ => sentence fr
  end.

(** The result after each stage, from the result before it and what the
    stage computed: the stage writes its own slot and at most one entry
    of [errors]. *)
Definition after_sentiment (o : outcome string) (r : AnalysisResult)
    : AnalysisResult :=
  mk_result (success r) (stored o (sentiment r)) (entities r) (pos r)
    (topics r) (word_count r) (sentence_count r) (char_count r)
    (errors r ++ recorded "Sentiment" o) (flagged_words r).

Definition after_ner (o : outcome (list Entity)) (r : AnalysisResult)
    : AnalysisResult :=
  mk_result (success r) (sentiment r) (stored o (entities r)) (pos r)
    (topics r) (word_count r) (sentence_count r) (char_count r)
    (errors r ++ recorded "NER" o) (flagged_words r).

Definition after_pos (o : outcome (dict nat)) (r : AnalysisResult)
    : AnalysisResult :=
  mk_result (success r) (sentiment r) (entities r) (stored o (pos r))
    (topics r) (word_count r) (sentence_count r) (char_count r)
    (errors r ++ recorded "POS" o) (flagged_words r).

Definition after_topic (o : outcome Topics) (r : AnalysisResult)
    : AnalysisResult :=
  mk_result (success r) (sentiment r) (entities r) (pos r)
    (stored o (topics r)) (word_count r) (sentence_count r) (char_count r)
    (errors r ++ recorded "Topic" o) (flagged_words r).

Definition after_flagging (o : outcome (list Flagging.FlaggedWord))
    (r : AnalysisResult) : AnalysisResult :=
  mk_result (success r) (sentiment r) (entities r) (pos r) (topics r)
    (word_count r) (sentence_count r) (char_count r)
    (errors r
     ++ match o with
        | Ok _ => []
        | Raise e => [("Flagged words failed: " ++ str_of e)%string]
        end)
    (Some (stored o [])).

(** The result with the statistics of [clean], before any stage. *)
Definition with_statistics (clean : string) : AnalysisResult :=
  mk_result false "neutral" [] [] general_topics
    (length (split_ws clean)) (count_sentences clean) (len clean) [] None.

Definition succeeded (r : AnalysisResult) : AnalysisResult :=
  mk_result true (sentiment r) (entities r) (pos r) (topics r)
    (word_count r) (sentence_count r) (char_count r)
    (errors r) (flagged_words r).

(** The result of the analysis of [clean] with the capabilities [ms]. *)
Definition analysed (w : World) (ms : models) (clean : string)
    : AnalysisResult :=
  let '(sentiment_model, ner_model, pos_model, topic_classifier) := ms in
  succeeded
    (after_flagging (Flagging.detect_flagged_words_server clean)
       (after_topic (topic_outcome w topic_classifier clean)
          (after_pos (pos_outcome w pos_model clean)
             (after_ner (ner_outcome w ner_model clean)
                (after_sentiment (sentiment_outcome w sentiment_model clean)
                   (with_statistics clean)))))).

(** The partial result when the capabilities could not be loaded. *)
Definition unloaded (clean : string) (model_error : exn) : AnalysisResult :=
  mk_result true "neutral" [] [] general_topics
    (length (split_ws clean)) (count_sentences clean) (len clean)
    [("Model loading failed: " ++ str_of model_error)%string] None.

(** The result when the body raised [e] before any statistics. *)
Definition rejected (before : list string) (e : exn) : AnalysisResult :=
  mk_result false "neutral" [] [] general_topics 0 0 0
    (before ++ [("Critical error: " ++ str_of e)%string]) None.

(** ** [nlp_analyze] *)

(** The request as the function reads it: the method, the Authorization
    header, and the JSON body, [None] when [get_json()] is falsy and
    otherwise its fields ['transcription'] and ['audioUrl'] (['' ] when
    absent). *)
Record Request := mk_request {
  method : string;
  authorization : option string;
  data : option (string * string)
}.

Inductive response_body :=
| Preflight
| Failure (error : string)
| Analysis (result : AnalysisResult) (user_id : string).

Definition response : Type := response_body * nat.

(** The two outer [except] clauses of the function. *)
Definition on_error (e : exn) : M Globals response :=
  if is_value_error e
  then ret (Failure (str_of e), 400)
  else ret (Failure "Internal server error", 500).

(** A request that passes the checks before its fields are looked at,
    for the user [uid], with the two fields of its body. *)
Definition authenticated (w : World) (request : Request) (uid : string)
    (transcription audioUrl : string) : Prop :=
  String.eqb (method request) "OPTIONS" = false
  /\ data request = Some (transcription, audioUrl)
  /\ exists auth_header token,
       authorization request = Some auth_header
       /\ startswith "Bearer " auth_header = true
       /\ index (split_on " " auth_header) 1 = Ok token
       /\ verify_id_token w token = Ok uid.

Definition nlp_analyze (w : World) (request : Request) : M Globals response :=
  if String.eqb (method request) "OPTIONS" then ret (Preflight, 200) else
  try_except
    (match authorization request with
     | None => ret (Failure "Missing or invalid Authorization header", 401)
     | Some auth_header =>
         if negb (truthy auth_header) || negb (startswith "Bearer " auth_header)
         then ret (Failure "Missing or invalid Authorization header", 401)
         else
           token <- lift (index (split_on " " auth_header) 1) ;;
           verified <-
             try_except
               (user_id <- lift (verify_id_token w token) ;; ret (Some user_id))
               (fun _ => ret None) ;;
           match verified with
           | None => ret (Failure "Invalid authentication token", 401)
           | Some user_id =>
               match data request with
               | None => ret (Failure "No JSON data provided", 400)
               | Some (transcription, audioUrl) =>
                   let transcription := strip transcription in
                   let audio_url := strip audioUrl in
                   if negb (truthy transcription) && negb (truthy audio_url)
                   then ret (Failure "No transcription or audio URL provided",
                             400)
                   else
                     result <- analyze_transcription w (PyStr transcription)
                                 (Some audio_url) ;;
                     ret (Analysis result user_id, 200)
               end
           end
     end)
    on_error.

(** ** [health_check] *)

(** The JSON object the health route returns. *)
Record Health := mk_health {
  status : string;
  service : string;
  models_loaded : bool
}.

Definition health_check (g : Globals) : Health :=
  mk_health "healthy" "nlp_processor_gcf" (negb (is_none (_sentiment_model g))).

(** ** Further notions *)

(** The four capabilities are cached. *)
Definition complete (g : Globals) : Prop :=
  exists s n p t, cached g = (Some s, Some n, Some p, Some t).

(** The status codes [nlp_analyze] answers with. *)
Definition statuses : list nat := [200; 400; 401; 500].

End Gcf.

(* ================================================================== *)
(** * Concrete worlds

    Behaviours of the collaborators to run the functions on: one in
    which every call succeeds, and variants of it in which chosen calls
    fail. *)
(* ================================================================== *)

Module Scenarios.
Import Lib.

(** The path of a URL [scheme://authority/path?query#fragment]: what lies
    between the authority and the first ['?'] or ['#']. *)
Fixpoint from_path (s : string) : string :=
  match s with
  | EmptyString => EmptyString
  | String c s' =>
      if Ascii.eqb c "/" || Ascii.eqb c "?" || Ascii.eqb c "#"
      then s else from_path s'
  end.

Fixpoint upto_query (s : string) : string :=
  match s with
  | EmptyString => EmptyString
  | String c s' =>
      if Ascii.eqb c "?" || Ascii.eqb c "#"
      then EmptyString else String c (upto_query s')
  end.

Fixpoint after_scheme (s : string) : option string :=
  match s with
  | String ":" (String "/" (String "/" rest)) => Some rest
  | String _ s' => after_scheme s'
  | EmptyString => None
  end.

Definition plain_path (url : string) : outcome string :=
  match after_scheme url with
  | Some rest => Ok (upto_query (from_path rest))
  | None => Ok (upto_query url)
  end.

Definition hex_value (c : ascii) : option nat :=
  let n := nat_of_ascii c in
  if between 48 n 57 then Some (n - 48)
  else if between 65 n 70 then Some (n - 55)
  else if between 97 n 102 then Some (n - 87)
  else None.

(** Percent-decoding of escapes below [%80]; any other text is kept. *)
Fixpoint percent_decode (s : string) : string :=
  match s with
  | String "%" (String h (String l rest as tail2) as tail1) =>
      match hex_value h, hex_value l with
      | Some a, Some b =>
          if 16 * a + b <? 128
          then String (ascii_of_nat (16 * a + b)) (percent_decode rest)
          else String "%" (percent_decode tail1)
      | _, _ => String "%" (percent_decode tail1)
      end
  | String c s' => String c (percent_decode s')
  | EmptyString => EmptyString
  end.

(** Every call succeeds; every model file is on the mount. *)
Definition calm : World := {|
  urlparse_path := plain_path;
  unquote := percent_decode;
  contractions_fix := fun s => s;
  path_exists := fun _ => true;
  load_error := fun _ _ => None;
  split_sentences := fun clean => Ok [split_ws clean];
  make_sentence := fun clean => Ok (split_ws clean);
  sentiment_predict := fun _ _ => Ok [mk_label "POSITIVE" (9 # 10)];
  ner_predict := fun _ ss => Ok (map (fun _ => []) ss);
  pos_predict := fun _ s => Ok (map (fun _ => Some "NN") s);
  topic_classify := fun _ _ ls =>
    Ok (mk_topic_output ls (map (fun _ => 1 # 6) ls));
  speech_client := Ok Client;
  audio_error := fun _ => None;
  config_error := fun _ => None;
  recognize := fun _ _ => Ok [["hello there"]];
  verify_id_token := fun _ => Ok "user-1";
  openai_api_key := Some "key";
  download := fun _ => Ok "audio";
  whisper := fun _ _ => Ok (200, "hello there")
|}.

Definition out_of_order (what : string) : exn := mk_exn Exception what.

(** The mount and the loaders of [w] replaced. *)
Definition with_models (w : World) (present : string -> bool)
    (failing : loader -> location -> option exn) : World := {|
  urlparse_path := urlparse_path w;
  unquote := unquote w;
  contractions_fix := contractions_fix w;
  path_exists := present;
  load_error := failing;
  split_sentences := split_sentences w;
  make_sentence := make_sentence w;
  sentiment_predict := sentiment_predict w;
  ner_predict := ner_predict w;
  pos_predict := pos_predict w;
  topic_classify := topic_classify w;
  speech_client := speech_client w;
  audio_error := audio_error w;
  config_error := config_error w;
  recognize := recognize w;
  verify_id_token := verify_id_token w;
  openai_api_key := openai_api_key w;
  download := download w;
  whisper := whisper w
|}.


(** The two transcription providers of [w] replaced. *)
Definition with_speech (w : World)
    (recognizer : RecognitionConfig -> string -> outcome (list (list string)))
    (whisper_response : outcome (nat * string)) : World := {|
  urlparse_path := urlparse_path w;
  unquote := unquote w;
  contractions_fix := contractions_fix w;
  path_exists := path_exists w;
  load_error := load_error w;
  split_sentences := split_sentences w;
  make_sentence := make_sentence w;
  sentiment_predict := sentiment_predict w;
  ner_predict := ner_predict w;
  pos_predict := pos_predict w;
  topic_classify := topic_classify w;
  speech_client := speech_client w;
  audio_error := audio_error w;
  config_error := config_error w;
  recognize := recognizer;
  verify_id_token := verify_id_token w;
  openai_api_key := openai_api_key w;
  download := download w;
  whisper := fun _ _ => whisper_response
|}.

(** A request with a well-formed bearer token. *)
Definition main_request (transcription audioUrl : string) : Main.Request :=
  Main.mk_request "POST" (Some "Bearer token-1") true transcription audioUrl.

Definition gcf_request (transcription audioUrl : string) : Gcf.Request :=
  Gcf.mk_request "POST" (Some "Bearer token-1")
    (Some (transcription, audioUrl)).

(** Nothing is on the mount. *)
Definition empty_mount : string -> bool := fun _ => false.

Definition same_location (a b : location) : bool :=
  match a, b with
  | Path p, Path q => String.eqb p q
  | Name m, Name n => String.eqb m n
  | _, _ => false
  end.

(** Every load from one of [locations] fails. *)
Definition failing_at (locations : list location)
    : loader -> location -> option exn :=
  fun _ loc =>
    if existsb (same_location loc) locations
    then Some (out_of_order "load failed") else None.

(** Every fetch by identifier fails (no network); files load. *)
Definition offline : loader -> location -> option exn :=
  fun _ loc =>
    match loc with
    | Name _ => Some (out_of_order "no network")
    | Path _ => None
    end.






(** Both transcription providers hear nothing. *)
Definition silent : World :=
  with_speech calm (fun _ _ => Ok []) (Ok (200, "")).





Definition no_pos : World :=
  with_models calm empty_mount (failing_at [Name "pos"]).

Definition no_fast_ner : World :=
  with_models calm empty_mount (failing_at [Name "ner-fast"]).

Definition example_url : string :=
  "https://firebasestorage.googleapis.com/v0/b/mybucket/o/folder%2Ffile.wav?token=x".



(** The identity provider refuses every token, with [refusal]. *)
Definition with_verifier (w : World) (refusal : exn) : World := {|
  urlparse_path := urlparse_path w;
  unquote := unquote w;
  contractions_fix := contractions_fix w;
  path_exists := path_exists w;
  load_error := load_error w;
  split_sentences := split_sentences w;
  make_sentence := make_sentence w;
  sentiment_predict := sentiment_predict w;
  ner_predict := ner_predict w;
  pos_predict := pos_predict w;
  topic_classify := topic_classify w;
  speech_client := speech_client w;
  audio_error := audio_error w;
  config_error := config_error w;
  recognize := recognize w;
  verify_id_token := fun _ => Raise refusal;
  openai_api_key := openai_api_key w;
  download := download w;
  whisper := whisper w
|}.

Definition expired : exn := mk_exn Exception "Token expired".

Definition malformed : exn := mk_exn ValueError "Illegal ID token provided".

(** No API key is configured for the transcription provider. *)
Definition without_key (w : World) : World := {|
  urlparse_path := urlparse_path w;
  unquote := unquote w;
  contractions_fix := contractions_fix w;
  path_exists := path_exists w;
  load_error := load_error w;
  split_sentences := split_sentences w;
  make_sentence := make_sentence w;
  sentiment_predict := sentiment_predict w;
  ner_predict := ner_predict w;
  pos_predict := pos_predict w;
  topic_classify := topic_classify w;
  speech_client := speech_client w;
  audio_error := audio_error w;
  config_error := config_error w;
  recognize := recognize w;
  verify_id_token := verify_id_token w;
  openai_api_key := None;
  download := download w;
  whisper := whisper w
|}.


(** The speech provider returns two results, the first with two
    alternatives. *)
Definition two_results : World :=
  with_speech calm (fun _ _ => Ok [["good"; "could"]; ["morning"]])
    (Ok (200, "")).

End Scenarios.

(* ================================================================== *)
(** * Properties of the string operations *)
(* ================================================================== *)

Lemma sapp_nil_r (s : string) : (s ++ "")%string = s.
Proof. induction s; simpl; congruence. Qed.

Lemma sapp_assoc (a b c : string) :
  ((a ++ b) ++ c)%string = (a ++ (b ++ c))%string.
Proof. induction a; simpl; congruence. Qed.

Lemma srev_onto_app (s acc : string) :
  srev_onto s acc = (srev s ++ acc)%string.
Proof.
  unfold srev. revert acc.
  induction s as [|c s IH]; intros acc; simpl; [reflexivity|].
  rewrite IH, (IH (String c "")), sapp_assoc. reflexivity.
Qed.

Lemma srev_cons (c : ascii) (s : string) :
  srev (String c s) = (srev s ++ String c "")%string.
Proof. unfold srev at 1. simpl. apply srev_onto_app. Qed.

Lemma srev_snoc (c : ascii) (s : string) :
  srev (s ++ String c "") = String c (srev s).
Proof.
  induction s as [|d s IH]; [reflexivity|].
  simpl. rewrite !srev_cons, IH. reflexivity.
Qed.

Lemma srev_involutive (s : string) : srev (srev s) = s.
Proof.
  induction s as [|c s IH]; [reflexivity|].
  now rewrite srev_cons, srev_snoc, IH.
Qed.

Lemma lstrip_length (s : string) : String.length (lstrip s) <= String.length s.
Proof.
  induction s as [|c s IH]; simpl; [lia|].
  destruct (isspace c); simpl; lia.
Qed.

Lemma lstrip_idempotent (s : string) : lstrip (lstrip s) = lstrip s.
Proof.
  induction s as [|c s IH]; [reflexivity|].
  simpl. destruct (isspace c) eqn:E; [exact IH|].
  simpl. now rewrite E.
Qed.

Lemma lstrip_snoc (c : ascii) (s : string) :
  isspace c = false ->
  lstrip (s ++ String c "") = (lstrip s ++ String c "")%string.
Proof.
  intros Hc. induction s as [|d s IH]; simpl; [now rewrite Hc|].
  now destruct (isspace d).
Qed.

(** Trimming the end of a text that starts with no blank leaves it
    starting with no blank. *)
Lemma rstrip_keeps_start (s : string) :
  lstrip s = s -> lstrip (rstrip s) = rstrip s.
Proof.
  destruct s as [|c s]; [reflexivity|].
  simpl. destruct (isspace c) eqn:E.
  - intros H. pose proof (lstrip_length s) as L. rewrite H in L.
    simpl in L. lia.
  - intros _. unfold rstrip.
    rewrite srev_cons, (lstrip_snoc c _ E), srev_snoc.
    simpl. now rewrite E.
Qed.

Lemma rstrip_idempotent (s : string) : rstrip (rstrip s) = rstrip s.
Proof.
  unfold rstrip. now rewrite srev_involutive, lstrip_idempotent.
Qed.

Lemma strip_idempotent (s : string) : strip (strip s) = strip s.
Proof.
  unfold strip.
  rewrite (rstrip_keeps_start (lstrip s) (lstrip_idempotent s)).
  apply rstrip_idempotent.
Qed.

Lemma strip_empty : strip "" = "".
Proof. reflexivity. Qed.

Lemma truthy_strip (s : string) : truthy (strip s) = true -> truthy s = true.
Proof. destruct s; [discriminate | reflexivity]. Qed.

Lemma not_truthy (s : string) : truthy s = false -> s = "".
Proof. destruct s; [reflexivity | discriminate]. Qed.

(* ================================================================== *)
(** * Properties of the stable sort *)
(* ================================================================== *)

Section SortReverse.

Context {A : Type} (key : A -> nat).

Lemma insert_reverse_perm (x : A) (l : list A) :
  Permutation (insert_reverse key x l) (x :: l).
Proof.
  induction l as [|y l IH]; simpl.
  - apply Permutation_refl.
  - destruct (key x <? key y).
    + eapply perm_trans; [apply perm_skip, IH | apply perm_swap].
    + apply Permutation_refl.
Qed.

Lemma sort_reverse_perm (l : list A) : Permutation (sort_reverse key l) l.
Proof.
  induction l as [|x l IH]; simpl.
  - constructor.
  - eapply perm_trans; [apply insert_reverse_perm | now apply perm_skip].
Qed.

Lemma insert_reverse_sorted (x : A) (l : list A) :
  StronglySorted (descending_by key) l -> StronglySorted (descending_by key) (insert_reverse key x l).
Proof.
  induction 1 as [|y l Hl IH Hy]; simpl.
  - repeat constructor.
  - destruct (key x <? key y) eqn:E.
    + apply Nat.ltb_lt in E.
      constructor; [exact IH|].
      eapply Permutation_Forall;
        [apply Permutation_sym, insert_reverse_perm|].
      constructor; [unfold descending_by; lia | exact Hy].
    + apply Nat.ltb_ge in E.
      constructor; [now constructor|].
      constructor; [exact E|].
      eapply Forall_impl; [|exact Hy].
      unfold descending_by; intros; lia.
Qed.

Lemma sort_reverse_sorted (l : list A) :
  StronglySorted (descending_by key) (sort_reverse key l).
Proof.
  induction l; simpl; [constructor | now apply insert_reverse_sorted].
Qed.

(** Stability: the items of any one key keep their order. *)
Lemma insert_reverse_stable (k : nat) (x : A) (l : list A) :
  filter (fun a => key a =? k) (insert_reverse key x l)
  = filter (fun a => key a =? k) (x :: l).
Proof.
  induction l as [|y l IH]; [reflexivity|].
  simpl insert_reverse.
  destruct (key x <? key y) eqn:E; [|reflexivity].
  apply Nat.ltb_lt in E.
  cbn [filter] in *. rewrite IH.
  destruct (key x =? k) eqn:Ex, (key y =? k) eqn:Ey; try reflexivity.
  apply Nat.eqb_eq in Ex, Ey. lia.
Qed.

Lemma sort_reverse_stable (k : nat) (l : list A) :
  filter (fun a => key a =? k) (sort_reverse key l)
  = filter (fun a => key a =? k) l.
Proof.
  induction l as [|x l IH]; [reflexivity|].
  simpl sort_reverse. rewrite insert_reverse_stable.
  cbn [filter]. now rewrite IH.
Qed.

End SortReverse.

Lemma filter_perm {A} (p : A -> bool) (l l' : list A) :
  Permutation l l' -> Permutation (filter p l) (filter p l').
Proof.
  induction 1 as [|x l l' _ IH|x y l|l l' l'' _ IH1 _ IH2]; simpl.
  - constructor.
  - destruct (p x); [now constructor | exact IH].
  - destruct (p x), (p y); try apply Permutation_refl. apply perm_swap.
  - eapply perm_trans; eassumption.
Qed.

(* ================================================================== *)
(** * Properties of lexical flagging *)
(* ================================================================== *)

Module FlaggingProps.
Import Flagging.

(** ** The frequency table *)

Lemma dict_sum_from (d : dict) (n : nat) :
  fold_left (fun acc kv => acc + snd kv) d n = n + dict_sum d.
Proof.
  unfold dict_sum. revert n.
  induction d as [|kv d IH]; intros n; simpl; [lia|].
  rewrite IH, (IH (snd kv)). lia.
Qed.

Lemma dict_sum_cons (kv : string * nat) (d : dict) :
  dict_sum (kv :: d) = snd kv + dict_sum d.
Proof. unfold dict_sum at 1. simpl. apply dict_sum_from. Qed.

Lemma dict_set_keys (d : dict) (k : string) (v : nat) :
  map fst (dict_set d k v)
  = if existsb (String.eqb k) (map fst d) then map fst d else map fst d ++ [k].
Proof.
  induction d as [|[k' v'] d IH]; [reflexivity|].
  simpl. rewrite (String.eqb_sym k k').
  destruct (String.eqb k' k); simpl; [reflexivity|].
  rewrite IH. now destruct (existsb _ _).
Qed.

Lemma existsb_eqb_In (k : string) (l : list string) :
  existsb (String.eqb k) l = true <-> In k l.
Proof.
  rewrite existsb_exists. split.
  - intros (x & Hx & E). apply String.eqb_eq in E. now subst.
  - intros H. exists k. split; [exact H | apply String.eqb_refl].
Qed.

Lemma dict_set_nodup (d : dict) (k : string) (v : nat) :
  NoDup (map fst d) -> NoDup (map fst (dict_set d k v)).
Proof.
  intros H. rewrite dict_set_keys.
  destruct (existsb _ _) eqn:E; [exact H|].
  apply NoDup_app; [exact H | repeat constructor; intros [] |].
  intros x Hx [<-|[]].
  apply existsb_eqb_In in Hx. congruence.
Qed.

Lemma dict_set_positive (d : dict) (k : string) (v : nat) :
  1 <= v -> Forall (fun kv => 1 <= snd kv) d ->
  Forall (fun kv => 1 <= snd kv) (dict_set d k v).
Proof.
  intros Hv. induction 1 as [|[k' v'] d Hk Hd IH]; simpl.
  - repeat constructor. exact Hv.
  - destruct (String.eqb k' k); constructor; auto.
Qed.

Lemma count_word_ok (d : dict) (w : string) :
  table_ok d -> table_ok (count_word d w).
Proof.
  intros [Hn Hp]. unfold count_word.
  destruct (2 <? len (clean_word w)); [|now split].
  split; [now apply dict_set_nodup | apply dict_set_positive; [lia | exact Hp]].
Qed.

Lemma word_count_ok (text : string) : table_ok (word_count text).
Proof.
  unfold word_count.
  assert (G : forall ws d, table_ok d -> table_ok (fold_left count_word ws d)).
  { induction ws as [|w ws IH]; intros d Hd; simpl; [exact Hd|].
    apply IH, count_word_ok, Hd. }
  apply G. split; constructor.
Qed.

Lemma table_sum_positive (d : dict) :
  Forall (fun kv => 1 <= snd kv) d -> d <> [] -> 1 <= dict_sum d.
Proof.
  intros H Hne. destruct H as [|kv d Hk _]; [congruence|].
  rewrite dict_sum_cons. lia.
Qed.

Lemma dict_lookup_not_in (d : dict) (k : string) :
  ~ In k (map fst d) -> dict_lookup d k = None.
Proof.
  induction d as [|[k' v] d IH]; intros H; simpl; [reflexivity|].
  destruct (String.eqb k' k) eqn:E.
  - apply String.eqb_eq in E. subst. exfalso. apply H. now left.
  - apply IH. intros Hin. apply H. now right.
Qed.

(** ** The lexicon pass *)

Lemma check_words_spec (wc : dict) (c : category) (ws : list string)
    (flagged : list FlaggedWord) :
  fold_left (check_word wc c) ws flagged
  = flagged ++ flat_map (emit wc) (map (pair c) ws).
Proof.
  revert flagged. induction ws as [|w ws IH]; intros flagged; simpl.
  - now rewrite app_nil_r.
  - rewrite IH. unfold check_word, emit at 2. simpl.
    destruct (dict_lookup wc w); [now rewrite <- app_assoc | reflexivity].
Qed.

Lemma check_categories_spec (wc : dict)
    (cats : list (category * list string)) (flagged : list FlaggedWord) :
  fold_left (check_category wc) cats flagged
  = flagged
    ++ flat_map (emit wc)
         (flat_map (fun entry => map (pair (fst entry)) (snd entry)) cats).
Proof.
  revert flagged. induction cats as [|[c ws] cats IH]; intros flagged; simpl.
  - now rewrite app_nil_r.
  - rewrite IH. unfold check_category. simpl.
    rewrite check_words_spec, flat_map_app, app_assoc. reflexivity.
Qed.

Lemma lexicon_pass_spec (wc : dict) :
  lexicon_pass wc = flat_map (emit wc) lexicon.
Proof. unfold lexicon_pass. now rewrite check_categories_spec. Qed.

Lemma distinct_NoDup (l : list string) : distinct l = true -> NoDup l.
Proof.
  induction l as [|x l IH]; simpl; intros H; constructor;
    apply andb_prop in H; destruct H as [H1 H2].
  - intros Hin. apply existsb_eqb_In in Hin. rewrite Hin in H1. discriminate.
  - now apply IH.
Qed.

(** No word is listed twice in the lexicon, across all categories. *)
Lemma lexicon_words_distinct : NoDup (map snd lexicon).
Proof. apply distinct_NoDup. vm_compute. reflexivity. Qed.

Lemma entries_for_app (w : string) (l l' : list FlaggedWord) :
  entries_for w (l ++ l') = entries_for w l ++ entries_for w l'.
Proof. apply filter_app. Qed.

Lemma emit_words (wc : dict) (es : list (category * string)) (w : string) :
  In w (map word (flat_map (emit wc) es)) -> In w (map snd es).
Proof.
  induction es as [|e es IH]; simpl; [tauto|].
  rewrite map_app, in_app_iff. intros [H|H]; [left | right; now apply IH].
  unfold emit in H. destruct (dict_lookup wc (snd e)); simpl in H; tauto.
Qed.

Lemma emit_nodup (wc : dict) (es : list (category * string)) :
  NoDup (map snd es) -> NoDup (map word (flat_map (emit wc) es)).
Proof.
  induction es as [|e es IH]; simpl; intros H; [constructor|].
  inversion H as [|? ? Hnin Hnd]; subst.
  rewrite map_app. unfold emit at 1.
  destruct (dict_lookup wc (snd e)); simpl; [|now apply IH].
  constructor; [|now apply IH].
  intros Hin. apply Hnin. eapply emit_words, Hin.
Qed.

Lemma entries_for_none (w : string) (l : list FlaggedWord) :
  ~ In w (map word l) -> entries_for w l = [].
Proof.
  induction l as [|fw l IH]; simpl; intros H; [reflexivity|].
  destruct (String.eqb (word fw) w) eqn:E.
  - apply String.eqb_eq in E. exfalso. apply H. now left.
  - apply IH. intros Hin. apply H. now right.
Qed.

(** The entries the pass leaves for [w]: the one of its category, when it
    is listed and was counted. *)
Lemma entries_for_emit (wc : dict) (es : list (category * string)) (w : string) :
  NoDup (map snd es) ->
  entries_for w (flat_map (emit wc) es)
  = match find (fun e => String.eqb (snd e) w) es with
    | Some e => emit wc (fst e, w)
    | None => []
    end.
Proof.
  induction es as [|[c w'] es IH]; simpl; intros H; [reflexivity|].
  inversion H as [|? ? Hnin Hnd]; subst.
  rewrite entries_for_app.
  destruct (String.eqb w' w) eqn:E.
  - apply String.eqb_eq in E. subst w'.
    rewrite (entries_for_none w (flat_map _ es)), app_nil_r.
    + unfold emit. simpl. destruct (dict_lookup wc w); simpl;
        [now rewrite String.eqb_refl | reflexivity].
    + intros Hin. apply Hnin. eapply emit_words, Hin.
  - rewrite IH by exact Hnd.
    unfold emit at 1. simpl.
    destruct (dict_lookup wc w'); simpl; [now rewrite E | reflexivity].
Qed.

Lemma lexicon_pass_entries (wc : dict) (w : string) :
  entries_for w (lexicon_pass wc)
  = match lexicon_category w, dict_lookup wc w with
    | Some c, Some n => [mk_flagged w c n (category_severity c)]
    | _, _ => []
    end.
Proof.
  rewrite lexicon_pass_spec, entries_for_emit by exact lexicon_words_distinct.
  unfold lexicon_category.
  destruct (find _ lexicon) as [[c w']|]; simpl; [|reflexivity].
  unfold emit. simpl. now destruct (dict_lookup wc w).
Qed.

Lemma already_flagged_entries (flagged : list FlaggedWord) (w : string) :
  already_flagged flagged w = negb (match entries_for w flagged with
                                    | [] => true | _ => false end).
Proof.
  induction flagged as [|fw l IH]; simpl; [reflexivity|].
  destruct (String.eqb (word fw) w); simpl; [reflexivity | exact IH].
Qed.

Lemma already_flagged_In (flagged : list FlaggedWord) (w : string) :
  already_flagged flagged w = true <-> In w (map word flagged).
Proof.
  unfold already_flagged. rewrite existsb_exists, in_map_iff. split.
  - intros (fw & Hin & E). apply String.eqb_eq in E. now exists fw.
  - intros (fw & E & Hin). exists fw. split; [exact Hin|].
    now apply String.eqb_eq.
Qed.

(** ** The repetition pass *)

Lemma repetitive_pass_returns (total : nat) (items : dict)
    (flagged : list FlaggedWord) :
  total <> 0 \/ items = [] ->
  exists out, repetitive_pass total items flagged = Ok out.
Proof.
  intros [Ht| ->]; [|now exists flagged].
  revert flagged. induction items as [|[w n] items IH]; intros flagged; simpl.
  - now exists flagged.
  - unfold true_div. destruct (Nat.eqb_spec total 0) as [E|_]; [contradiction|].
    destruct (_ && _); [destruct (negb _)|]; apply IH.
Qed.

Lemma repetitive_pass_nodup (total : nat) (items : dict)
    (flagged out : list FlaggedWord) :
  repetitive_pass total items flagged = Ok out ->
  NoDup (map word flagged) -> NoDup (map word out).
Proof.
  revert flagged. induction items as [|[w n] items IH]; intros flagged; simpl.
  - now intros [= <-].
  - destruct (true_div n total) as [q|e]; [|discriminate].
    destruct (_ && _); [|apply IH].
    destruct (already_flagged flagged w) eqn:E; simpl; [apply IH|].
    intros H Hnd. apply (IH _ H).
    rewrite map_app. simpl.
    apply NoDup_app; [exact Hnd | repeat constructor; intros [] |].
    intros x Hx [<-|[]].
    apply already_flagged_In in Hx. congruence.
Qed.

(** The entries the pass leaves for [w], from the list it started with
    and the table it walks. *)
Lemma repetitive_pass_entries (total : nat) (items : dict)
    (flagged out : list FlaggedWord) (w : string) :
  NoDup (map fst items) ->
  repetitive_pass total items flagged = Ok out ->
  entries_for w out
  = if already_flagged flagged w then entries_for w flagged
    else match dict_lookup items w with
         | Some n =>
             if above_five_percent (n, total) && (3 <? n)
             then [mk_flagged w repetitive n low] else []
         | None => []
         end.
Proof.
  revert flagged.
  induction items as [|[w' n] items IH]; intros flagged Hnd; simpl.
  - intros [= <-]. rewrite already_flagged_entries.
    now destruct (entries_for w flagged).
  - apply NoDup_cons_iff in Hnd. destruct Hnd as [Hnin Hnd']. simpl in Hnin.
    unfold true_div. destruct (total =? 0); [discriminate|].
    assert (Hskip :
      repetitive_pass total items flagged = Ok out ->
      already_flagged flagged w' = true
      \/ above_five_percent (n, total) && (3 <? n) = false ->
      entries_for w out
      = if already_flagged flagged w then entries_for w flagged
        else if String.eqb w' w
             then if above_five_percent (n, total) && (3 <? n)
                  then [mk_flagged w repetitive n low] else []
             else match dict_lookup items w with
                  | Some n0 =>
                      if above_five_percent (n0, total) && (3 <? n0)
                      then [mk_flagged w repetitive n0 low] else []
                  | None => []
                  end).
    { intros H Hwhy. rewrite (IH _ Hnd' H).
      destruct (already_flagged flagged w) eqn:Ew; [reflexivity|].
      destruct (String.eqb_spec w' w) as [-> |_]; [|reflexivity].
      rewrite (dict_lookup_not_in items w Hnin).
      destruct Hwhy as [Hf|Hf]; [congruence | now rewrite Hf]. }
    destruct (above_five_percent (n, total) && (3 <? n)) eqn:Et.
    2:{ intros H. rewrite (Hskip H) by (now right).
        destruct (already_flagged flagged w), (String.eqb w' w);
          simpl; rewrite ?Et; reflexivity. }
    destruct (already_flagged flagged w') eqn:Ef; simpl.
    1:{ intros H. rewrite (Hskip H) by (now left).
        destruct (already_flagged flagged w), (String.eqb w' w);
          simpl; rewrite ?Et; reflexivity. }
    intros H. rewrite (IH _ Hnd' H).
    unfold already_flagged at 1. rewrite existsb_app. simpl.
    rewrite orb_false_r, entries_for_app.
    fold (already_flagged flagged w). simpl.
    destruct (String.eqb_spec w' w) as [-> |Hne].
    + rewrite Ef. simpl.
      rewrite (entries_for_none w flagged); [now rewrite Et|].
      rewrite <- already_flagged_In. congruence.
    + rewrite orb_false_r, app_nil_r. reflexivity.
Qed.

Lemma detected_returns (text : string) :
  exists flagged, detected text = Ok flagged.
Proof.
  unfold detected. apply repetitive_pass_returns.
  destruct (word_count text) as [|kv d] eqn:E; [now right | left].
  pose proof (word_count_ok text) as [_ Hp]. rewrite E in Hp.
  pose proof (table_sum_positive (kv :: d) Hp). 
  assert (kv :: d <> []) by discriminate. intuition lia.
Qed.

Lemma detected_distinct (text : string) (flagged : list FlaggedWord) :
  detected text = Ok flagged -> NoDup (map word flagged).
Proof.
  unfold detected. intros H.
  apply (repetitive_pass_nodup _ _ _ _ H).
  rewrite lexicon_pass_spec. apply emit_nodup, lexicon_words_distinct.
Qed.

(** ** The claims *)

(** C8. For every text, lexical flagging returns a list (it raises
    nothing); the list is sorted by severity, highest first; the entries
    of any one severity stand in the order in which they were detected;
    and no word has more than one entry. *)
Theorem flagging_sorted_stable_distinct (text : string) :
  exists flagged out,
    detected text = Ok flagged
    /\ detect_flagged_words_server text = Ok out
    /\ StronglySorted not_less_severe out
    /\ (forall s, entries_of_severity s out = entries_of_severity s flagged)
    /\ Permutation out flagged
    /\ NoDup (map word out).
Proof.
  destruct (detected_returns text) as [flagged H].
  exists flagged, (sort_reverse sort_key flagged).
  unfold detect_flagged_words_server. rewrite H.
  repeat split.
  - apply sort_reverse_sorted.
  - intros s. apply (sort_reverse_stable sort_key (severity_order s)).
  - apply sort_reverse_perm.
  - eapply Permutation_NoDup;
      [apply Permutation_map, Permutation_sym, sort_reverse_perm|].
    exact (detected_distinct text flagged H).
Qed.

(** C9. A word of the frequency table that passes the repetition
    thresholds has exactly one entry in the output: the entry of its
    lexicon category when the lexicon lists it (and then no repetitive
    entry beside it), and otherwise a repetitive entry of severity low. *)
Theorem lexicon_entry_not_repeated (text w : string) (count : nat) :
  dict_lookup (word_count text) w = Some count ->
  repeated (word_count text) count = true ->
  exists out,
    detect_flagged_words_server text = Ok out
    /\ entries_for w out
       = match lexicon_category w with
         | Some c => [mk_flagged w c count (category_severity c)]
         | None => [mk_flagged w repetitive count low]
         end.
Proof.
  intros Hw Hrep.
  destruct (detected_returns text) as [flagged H].
  exists (sort_reverse sort_key flagged).
  unfold detect_flagged_words_server. rewrite H. split; [reflexivity|].
  assert (E : entries_for w flagged
              = match lexicon_category w with
                | Some c => [mk_flagged w c count (category_severity c)]
                | None => [mk_flagged w repetitive count low]
                end).
  { unfold detected in H.
    rewrite (repetitive_pass_entries _ _ _ _ w
               (proj1 (word_count_ok text)) H).
    rewrite already_flagged_entries, lexicon_pass_entries, Hw.
    unfold repeated in Hrep. rewrite Hrep.
    now destruct (lexicon_category w). }
  pose proof (filter_perm (fun fw => String.eqb (word fw) w) _ _
                (sort_reverse_perm sort_key flagged)) as P.
  fold (entries_for w (sort_reverse sort_key flagged)) in P.
  fold (entries_for w flagged) in P. rewrite E in P.
  destruct (lexicon_category w);
    now apply Permutation_sym, Permutation_length_1_inv in P.
Qed.

(** A repeated lexicon word and a repeated unlisted word. *)
Lemma lexicon_entry_not_repeated_witness :
  (exists out,
     detect_flagged_words_server "Help! help, HELP me: help." = Ok out
     /\ entries_for "help" out = [mk_flagged "help" urgency 4 medium])
  /\ (exists out,
     detect_flagged_words_server "again again and again and again" = Ok out
     /\ entries_for "again" out = [mk_flagged "again" repetitive 4 low]).
Proof.
  split.
  - exact (lexicon_entry_not_repeated
             "Help! help, HELP me: help." "help" 4 eq_refl eq_refl).
  - exact (lexicon_entry_not_repeated
             "again again and again and again" "again" 4 eq_refl eq_refl).
Defined.

End FlaggingProps.

(* ================================================================== *)
(** * The monad *)
(* ================================================================== *)

Section MonadLaws.

Context {S : Type}.

Lemma bind_ok {A B} (m : M S A) (k : A -> M S B) (s s' : S) (a : A) :
  m s = (Ok a, s') -> bind m k s = k a s'.
Proof. unfold bind. now intros ->. Qed.

Lemma bind_raise {A B} (m : M S A) (k : A -> M S B) (s s' : S) (e : exn) :
  m s = (Raise e, s') -> bind m k s = (Raise e, s').
Proof. unfold bind. now intros ->. Qed.

Lemma try_ok {A} (m : M S A) (h : exn -> M S A) (s s' : S) (a : A) :
  m s = (Ok a, s') -> try_except m h s = (Ok a, s').
Proof. unfold try_except. now intros ->. Qed.

Lemma try_raise {A} (m : M S A) (h : exn -> M S A) (s s' : S) (e : exn) :
  m s = (Raise e, s') -> try_except m h s = h e s'.
Proof. unfold try_except. now intros ->. Qed.

(** A [try] whose handler returns never raises. *)
Lemma try_returns {A} (m : M S A) (h : exn -> M S A) (s : S) :
  (forall e s', exists a s'', h e s' = (Ok a, s'')) ->
  exists a s', try_except m h s = (Ok a, s').
Proof.
  intros Hh. unfold try_except.
  destruct (m s) as [[a|e] s']; [now exists a, s' | apply Hh].
Qed.

End MonadLaws.

(* ================================================================== *)
(** * Properties of the primary deployment *)
(* ================================================================== *)

Module MainProps.
Import Lib Main.

(** ** The locator rewrite *)

Lemma convert_passes_through (w : World) (url : string) :
  web_facing w url = false -> convert_to_gs_uri w url = url.
Proof.
  unfold web_facing, convert_to_gs_uri. intros H.
  destruct (truthy url); [|reflexivity]. simpl.
  destruct (startswith storage_host url); [|reflexivity].
  simpl in *.
  destruct (urlparse_path w url) as [path|e]; [|reflexivity].
  destruct (split_on "/" path) as [|p0 [|p1 [|p2 [|p3 [|p4 [|p5 rest]]]]]];
    try reflexivity.
  cbn [length nth Nat.ltb Nat.leb andb].
  destruct (String.eqb_spec p2 "b") as [-> |_]; [|reflexivity].
  destruct (String.eqb_spec p4 "o") as [-> |_]; [|reflexivity].
  discriminate H.
Qed.

(** C7. Whenever the URL library parses the specification's example as
    Python's does (path [/v0/b/mybucket/o/folder%2Ffile.wav], the escape
    [%2F] decoded to [/]), the rewrite maps the example to the canonical
    locator of bucket [mybucket] and object [folder/file.wav]; and every
    input that is not of the web-facing form is returned unchanged. *)
Theorem convert_to_gs_uri_rewrites_web_locator (w : World) :
  urlparse_path w Scenarios.example_url
    = Ok "/v0/b/mybucket/o/folder%2Ffile.wav" ->
  unquote w "folder%2Ffile.wav" = "folder/file.wav" ->
  convert_to_gs_uri w Scenarios.example_url = "gs://mybucket/folder/file.wav"
  /\ (forall url, web_facing w url = false -> convert_to_gs_uri w url = url).
Proof.
  intros Hparse Hunquote. split; [|apply convert_passes_through].
  unfold convert_to_gs_uri. rewrite Hparse.
  cbn -[unquote]. now rewrite Hunquote.
Qed.

Lemma convert_to_gs_uri_rewrites_web_locator_witness :
  convert_to_gs_uri Scenarios.calm Scenarios.example_url
  = "gs://mybucket/folder/file.wav".
Proof.
  exact (proj1 (convert_to_gs_uri_rewrites_web_locator Scenarios.calm
                  eq_refl eq_refl)).
Defined.

(** ** The transcription resolver *)

Lemma logged_logged (g : Globals) (es es' : list event) :
  logged (logged g es) es' = logged g (es ++ es').
Proof. unfold logged. simpl. now rewrite <- app_assoc. Qed.

Lemma attempt_run (w : World) (client : SpeechClient)
    (config : RecognitionConfig) (uri : string) (g : Globals) :
  attempt w client config uri g
  = (recognition w config uri, logged g [Recognize config uri]).
Proof. reflexivity. Qed.



(** The resolver, as a table of what stands before its attempts and of
    the two attempts. *)
Lemma transcribe_gcs_run (w : World) (uri : string) (g : Globals) :
  let locator := convert_to_gs_uri w uri in
  transcribe_gcs w uri g
  = match get_speech_client w g with
    | (Raise e, g0) => (Raise e, g0)
    | (Ok _, g0) =>
        match audio_error w locator with
        | Some e => (Raise e, g0)
        | None =>
            match config_error w webm_config with
            | Some e => (Raise e, g0)
            | None =>
                match recognition w webm_config locator with
                | Ok t => (Ok t, logged g0 [Recognize webm_config locator])
                | Raise _ =>
                    match config_error w generic_config with
                    | Some e2 =>
                        (Raise e2, logged g0 [Recognize webm_config locator])
                    | None =>
                        (recognition w generic_config locator,
                         logged g0 [Recognize webm_config locator;
                                    Recognize generic_config locator])
                    end
                end
            end
        end
    end.
Proof.
  intros locator. unfold transcribe_gcs. fold locator.
  unfold bind at 1.
  destruct (get_speech_client w g) as [[client|e] g0]; [|reflexivity].
  unfold bind at 1, lift at 1, construct at 1.
  destruct (audio_error w locator); [reflexivity|].
  unfold bind at 1, lift at 1, construct at 1.
  destruct (config_error w webm_config); [reflexivity|].
  unfold try_except at 1. rewrite attempt_run.
  destruct (recognition w webm_config locator) as [t|e]; [reflexivity|].
  unfold try_except, bind at 1, lift at 1, construct.
  destruct (config_error w generic_config); [reflexivity|].
  rewrite attempt_run, logged_logged.
  now destruct (recognition w generic_config locator).
Qed.





(** ** The capability registry *)

Ltac run_loader :=
  unfold get_models, acquire_sentiment, acquire_ner, acquire_pos,
    acquire_topic, load, log, set_sentiment_model, set_ner_model,
    set_pos_model, set_topic_classifier, when, try_except, bind, get,
    modify, ret, raise, cached, logged in *;
  simpl in *.

(** C4, on the code.  With every model file on the mount and an empty
    cache, the sentiment capability [get_models] ends with is the one
    fetched by the identifier ['sentiment']: the file of the mount is
    loaded and then replaced, while the entity tagger comes from its
    file.  And when nothing can be fetched, [get_models] raises although
    the sentiment file is on the mount and loads. *)
Theorem sentiment_is_fetched_although_mounted :
  _sentiment_model (snd (get_models Scenarios.calm cold))
    = Some (Loaded ClassifierLoad (Name "sentiment"))
  /\ _ner_model (snd (get_models Scenarios.calm cold))
    = Some (Loaded SequenceTaggerLoad (Path NER_MODEL_PATH))
  /\ firstn 3 (trace (snd (get_models Scenarios.calm cold)))
    = [Load ClassifierLoad (Path SENTIMENT_MODEL_PATH);
       Load ClassifierLoad (Name "sentiment");
       Load SequenceTaggerLoad (Path NER_MODEL_PATH)]
  /\ get_models
       (Scenarios.with_models Scenarios.calm (fun _ => true) Scenarios.offline)
       cold
     = (Raise (Scenarios.out_of_order "no network"),
        mk_globals (Some (Loaded ClassifierLoad (Path SENTIMENT_MODEL_PATH)))
          None None None None
          [Load ClassifierLoad (Path SENTIMENT_MODEL_PATH);
           Load ClassifierLoad (Name "sentiment")]).
Proof. repeat split. Qed.

(** A failed fetch of the POS tagger leaves [None] and returns. *)
Lemma acquire_pos_fetch (w : World) (g : Globals) :
  path_exists w POS_MODEL_PATH = false -> _pos_model g = None ->
  acquire_pos w g
  = (Ok tt,
     mk_globals (_sentiment_model g) (_ner_model g)
       (match load_error w SequenceTaggerLoad (Name "pos") with
        | None => Some (Loaded SequenceTaggerLoad (Name "pos"))
        | Some _ => None
        end)
       (_topic_classifier g) (_speech_client g)
       (trace g
        ++ (if path_exists w pos_cache_dir then [Evict pos_cache_dir] else [])
        ++ [Load SequenceTaggerLoad (Name "pos")])).
Proof.
  intros Hp Hpos. run_loader. rewrite Hpos, Hp. simpl.
  destruct (path_exists w pos_cache_dir); simpl;
    destruct (load_error w SequenceTaggerLoad (Name "pos")); simpl;
    rewrite <- ?app_assoc; reflexivity.
Qed.







(** ** The analysis *)







End MainProps.


(* ================================================================== *)
(** * Properties of the alternate deployment *)
(* ================================================================== *)

Module GcfProps.
Import Lib Gcf.

(** ** The capability registry *)

Ltac run_loader :=
  unfold get_models, fast_chain, fallback_chain, acquire, load, log,
    set_sentiment_model, set_ner_model, set_pos_model,
    set_topic_classifier, when, try_except, bind, get, modify, ret, raise,
    cached, after_fallback, kept_or, needed, bart in *;
  simpl in *.




(** ** The stages *)

Ltac run_frame :=
  unfold update_result, set_sentence, append_error, set_success,
    set_sentiment, set_entities, set_pos, set_topics, set_statistics,
    set_flagged_words, on_handle, lift, try_except, bind, get, modify,
    ret, raise in *;
  simpl in *.

Ltac finish_stage :=
  unfold recorded, stored;
  match goal with fr : Frame |- _ => destruct fr as [? [] ?] end;
  cbn; rewrite ?app_nil_r; reflexivity.

Lemma the_sentence_run (w : World) (clean : string) (fr : Frame) :
  sentence_of w clean fr ->
  the_sentence w clean fr
  = (make_sentence w clean,
     mk_frame (globals fr) (result fr) (cache_sentence w clean fr)).
Proof.
  unfold the_sentence, cache_sentence.
  destruct fr as [g r o]. intros [H|(s & H & E)]; simpl in H; subst o.
  - run_frame. now destruct (make_sentence w clean).
  - run_frame. now rewrite E.
Qed.

Lemma cache_sentence_ok (w : World) (clean : string) (fr : Frame)
    (g : Globals) (r : AnalysisResult) :
  sentence_of w clean fr ->
  sentence_of w clean (mk_frame g r (cache_sentence w clean fr)).
Proof.
  unfold sentence_of, cache_sentence. simpl.
  destruct (make_sentence w clean) as [s|e].
  - intros _. right. now exists s.
  - intros [H|(s & _ & E)]; [now left | discriminate E].
Qed.

Lemma sentiment_stage_run (w : World) (m : option handle) (clean : string)
    (fr : Frame) :
  sentence_of w clean fr ->
  sentiment_stage w m clean fr
  = (Ok tt,
     mk_frame (globals fr)
       (after_sentiment (sentiment_outcome w m clean) (result fr))
       (cache_sentence w clean fr)).
Proof.
  intros H. unfold sentiment_stage, try_except, bind at 1.
  rewrite (the_sentence_run w clean fr H).
  unfold sentiment_outcome, after_sentiment, and_then.
  destruct (make_sentence w clean) as [s|e]; run_frame;
    [destruct (call_on m _)|]; finish_stage.
Qed.

Lemma ner_stage_run (w : World) (m : option handle) (clean : string)
    (fr : Frame) :
  ner_stage w m clean fr
  = (Ok tt,
     mk_frame (globals fr)
       (after_ner (ner_outcome w m clean) (result fr)) (sentence fr)).
Proof.
  unfold ner_stage, ner_outcome, after_ner, and_then. run_frame.
  destruct (split_sentences w clean) as [ss|e];
    [destruct (call_on m _)|]; finish_stage.
Qed.

Lemma pos_stage_run (w : World) (m : option handle) (clean : string)
    (fr : Frame) :
  sentence_of w clean fr ->
  pos_stage w m clean fr
  = (Ok tt,
     mk_frame (globals fr)
       (after_pos (pos_outcome w m clean) (result fr))
       (cache_sentence w clean fr)).
Proof.
  intros H. unfold pos_stage, try_except, bind at 1.
  rewrite (the_sentence_run w clean fr H).
  unfold pos_outcome, after_pos, and_then.
  destruct (make_sentence w clean) as [s|e]; run_frame;
    [destruct (call_on m _); [destruct (count_tags _ _)|]|];
    finish_stage.
Qed.

Lemma topic_stage_run (w : World) (m : option handle) (clean : string)
    (fr : Frame) :
  topic_stage w m clean fr
  = (Ok tt,
     mk_frame (globals fr)
       (after_topic (topic_outcome w m clean) (result fr)) (sentence fr)).
Proof.
  unfold topic_stage, topic_outcome, after_topic. run_frame.
  destruct (call_on m _); finish_stage.
Qed.

Lemma flagging_stage_run (clean : string) (fr : Frame) :
  flagging_stage clean fr
  = (Ok tt,
     mk_frame (globals fr)
       (after_flagging (Flagging.detect_flagged_words_server clean)
          (result fr))
       (sentence fr)).
Proof.
  unfold flagging_stage, after_flagging. run_frame.
  destruct (Flagging.detect_flagged_words_server clean); finish_stage.
Qed.

(** ** The analysis *)

Lemma resolve_text_given (w : World) (raw : string) (audio_url : option string)
    (fr : Frame) :
  truthy (strip raw) = true ->
  resolve_text w (PyStr raw) audio_url fr = (Ok (PyStr raw), fr).
Proof.
  intros H. unfold resolve_text, lacks_text.
  rewrite H, (truthy_strip raw H). now destruct audio_url.
Qed.

(** The five stages in a row, from a frame in which [sentence] is not
    yet set. *)
Lemma stages_run (w : World) (ms : models) (clean : string)
    (g : Globals) (r : AnalysisResult) :
  let '(sentiment_model, ner_model, pos_model, topic_classifier) := ms in
  exists o,
    bind (sentiment_stage w sentiment_model clean) (fun _ =>
    bind (ner_stage w ner_model clean) (fun _ =>
    bind (pos_stage w pos_model clean) (fun _ =>
    bind (topic_stage w topic_classifier clean) (fun _ =>
    bind (flagging_stage clean) (fun _ => set_success true)))))
      (mk_frame g r None)
    = (Ok tt,
       mk_frame g
         (succeeded
            (after_flagging (Flagging.detect_flagged_words_server clean)
               (after_topic (topic_outcome w topic_classifier clean)
                  (after_pos (pos_outcome w pos_model clean)
                     (after_ner (ner_outcome w ner_model clean)
                        (after_sentiment
                           (sentiment_outcome w sentiment_model clean) r))))))
         o).
Proof.
  destruct ms as [[[sm nm] pm] tm].
  assert (H0 : sentence_of w clean (mk_frame g r None)) by now left.
  eexists.
  erewrite bind_ok by (apply sentiment_stage_run, H0).
  erewrite bind_ok by apply ner_stage_run.
  erewrite bind_ok by (apply pos_stage_run, cache_sentence_ok, H0).
  erewrite bind_ok by apply topic_stage_run.
  erewrite bind_ok by apply flagging_stage_run.
  reflexivity.
Qed.

(** The analysis of a text that is there and stays there under
    normalization: a table over the outcome of [get_models]. *)
Lemma analyze_text_run (w : World) (raw : string) (audio_url : option string)
    (g : Globals) :
  let clean := contractions_fix w (strip raw) in
  truthy (strip raw) = true -> truthy clean = true ->
  analyze_transcription w (PyStr raw) audio_url g
  = match get_models w g with
    | (Ok ms, g') => (Ok (analysed w ms clean), g')
    | (Raise e, g') => (Ok (unloaded clean e), g')
    end.
Proof.
  intros clean Hraw Hclean.
  unfold analyze_transcription, try_except, bind at 1, body, bind at 1.
  rewrite (resolve_text_given w raw audio_url _ Hraw).
  rewrite (truthy_strip raw Hraw). fold clean. rewrite Hclean.
  cbn [negb].
  unfold bind at 1, set_statistics, update_result, modify. cbn [result globals sentence initial_result].
  unfold bind at 1, try_except at 1, bind at 1, on_globals. cbn [globals result sentence].
  destruct (get_models w g) as [[ms|e] g'].
  - pose proof (stages_run w ms clean g' (with_statistics clean)) as S.
    destruct ms as [[[sm nm] pm] tm]. destruct S as [o S].
    unfold ret at 1. unfold with_statistics in S.
    cbn [success sentiment entities pos topics errors flagged_words
         initial_result general_topics].
    rewrite S. reflexivity.
  - reflexivity.
Qed.

(** Whatever the body does, the function returns its [result]. *)
Lemma analyze_returns (w : World) (transcription : pyval)
    (audio_url : option string) (g : Globals) :
  exists r g', analyze_transcription w transcription audio_url g = (Ok r, g').
Proof.
  unfold analyze_transcription.
  match goal with |- context [try_except ?m ?h ?s] =>
    destruct (try_returns m h s) as (r & fr & E)
  end.
  - intros e fr. eexists. eexists. reflexivity.
  - rewrite E. now exists r, (globals fr).
Qed.

Lemma analyze_invalid (w : World) (transcription : pyval)
    (audio_url : option string) (g : Globals) :
  transcription = PyNone \/ transcription = PyOther
  \/ transcription = PyStr "" ->
  audio_url = None \/ audio_url = Some "" ->
  analyze_transcription w transcription audio_url g
  = (Ok (rejected [] Main.invalid_input), g).
Proof.
  intros [-> |[-> | ->]] [-> | ->]; reflexivity.
Qed.

Lemma analyze_empty_after_cleaning (w : World) (raw : string)
    (audio_url : option string) (g : Globals) :
  truthy (strip raw) = true ->
  truthy (contractions_fix w (strip raw)) = false ->
  analyze_transcription w (PyStr raw) audio_url g
  = (Ok (rejected [] Main.empty_after_cleaning), g).
Proof.
  intros Hraw Hclean.
  unfold analyze_transcription, try_except, bind at 1, body, bind at 1.
  rewrite (resolve_text_given w raw audio_url _ Hraw).
  rewrite (truthy_strip raw Hraw), Hclean. reflexivity.
Qed.

Lemma analyze_audio_failure (w : World) (transcription : pyval)
    (url : string) (e : exn) (g : Globals) :
  lacks_text transcription = true -> truthy url = true ->
  transcribe_audio w url = Raise e ->
  analyze_transcription w transcription (Some url) g
  = (Ok (rejected [("Audio transcription failed: " ++ str_of e)%string]
           no_text_available), g).
Proof.
  intros Hlacks Hurl Haudio.
  unfold analyze_transcription, try_except at 1, bind at 1, body, bind at 1,
    resolve_text.
  rewrite Hlacks, Hurl. cbn [andb].
  unfold try_except at 1, bind at 1, lift. rewrite Haudio. reflexivity.
Qed.


(** ** The endpoint *)

Lemma gcf_authenticated_run (w : World) (request : Request) (uid : string)
    (transcription audioUrl : string) (g : Globals) :
  authenticated w request uid transcription audioUrl ->
  nlp_analyze w request g
  = if negb (truthy (strip transcription)) && negb (truthy (strip audioUrl))
    then (Ok (Failure "No transcription or audio URL provided", 400), g)
    else
      match analyze_transcription w (PyStr (strip transcription))
              (Some (strip audioUrl)) g with
      | (Ok r, g') => (Ok (Analysis r uid, 200), g')
      | (Raise e, g') => on_error e g'
      end.
Proof.
  intros (Hm & Hd & h & token & Hh & Hb & Ht & Hv).
  unfold nlp_analyze. rewrite Hm, Hh, Hb, Hd.
  assert (truthy h = true) as -> by (destruct h; [discriminate Hb | reflexivity]).
  cbn [negb orb].
  unfold try_except at 1, bind at 1, lift at 1. rewrite Ht.
  unfold bind at 1, try_except at 1, bind at 1, lift at 1. rewrite Hv.
  cbn [ret].
  destruct (negb (truthy (strip transcription))
            && negb (truthy (strip audioUrl))); [reflexivity|].
  unfold bind.
  now destruct (analyze_transcription w _ _ g) as [[r|e] g'].
Qed.

Lemma endpoint_answers (w : World) (request : Request) (uid : string)
    (transcription audioUrl : string) (g : Globals) :
  authenticated w request uid transcription audioUrl ->
  negb (truthy (strip transcription)) && negb (truthy (strip audioUrl))
    = false ->
  exists r g',
    analyze_transcription w (PyStr (strip transcription))
      (Some (strip audioUrl)) g = (Ok r, g')
    /\ nlp_analyze w request g = (Ok (Analysis r uid, 200), g').
Proof.
  intros Hauth Hsome.
  rewrite (gcf_authenticated_run w request uid _ _ g Hauth), Hsome.
  destruct (analyze_returns w (PyStr (strip transcription))
              (Some (strip audioUrl)) g) as (r & g' & E).
  rewrite E. now exists r, g'.
Qed.

(** C10. The analysis function of the alternate deployment returns a
    result for every input, every behaviour of its collaborators and
    every state of the cache: it never raises.  Invalid or empty input
    and a failed audio transcription give [success = false] with a
    "Critical error" entry (after the "Audio transcription failed" entry,
    for audio); a failed model loading gives [success = true] with a
    "Model loading failed" entry.  So a request that reaches the analysis
    is answered with status 200 and that result: the 400 and 500 handlers
    of the endpoint are not reached from it. *)
Theorem analysis_never_raises (w : World) (g : Globals) :
  (forall transcription audio_url,
     exists r g',
       analyze_transcription w transcription audio_url g = (Ok r, g'))
  /\ (forall transcription audio_url,
        transcription = PyNone \/ transcription = PyOther
        \/ transcription = PyStr "" ->
        audio_url = None \/ audio_url = Some "" ->
        analyze_transcription w transcription audio_url g
        = (Ok (rejected [] Main.invalid_input), g))
  /\ (forall raw audio_url,
        truthy (strip raw) = true ->
        truthy (contractions_fix w (strip raw)) = false ->
        analyze_transcription w (PyStr raw) audio_url g
        = (Ok (rejected [] Main.empty_after_cleaning), g))
  /\ (forall transcription url e,
        lacks_text transcription = true -> truthy url = true ->
        transcribe_audio w url = Raise e ->
        analyze_transcription w transcription (Some url) g
        = (Ok (rejected [("Audio transcription failed: " ++ str_of e)%string]
                 no_text_available), g))
  /\ (forall raw audio_url e g',
        truthy (strip raw) = true ->
        truthy (contractions_fix w (strip raw)) = true ->
        get_models w g = (Raise e, g') ->
        analyze_transcription w (PyStr raw) audio_url g
        = (Ok (unloaded (contractions_fix w (strip raw)) e), g'))
  /\ (forall request uid transcription audioUrl,
        authenticated w request uid transcription audioUrl ->
        negb (truthy (strip transcription)) && negb (truthy (strip audioUrl))
          = false ->
        exists r g',
          analyze_transcription w (PyStr (strip transcription))
            (Some (strip audioUrl)) g = (Ok r, g')
          /\ nlp_analyze w request g = (Ok (Analysis r uid, 200), g')).
Proof.
  split; [|split; [|split; [|split; [|split]]]].
  - intros. apply analyze_returns.
  - intros. now apply analyze_invalid.
  - intros. now apply analyze_empty_after_cleaning.
  - intros. now apply analyze_audio_failure.
  - intros raw audio_url e g' Hraw Hclean Hload.
    rewrite (analyze_text_run w raw audio_url g Hraw Hclean), Hload.
    reflexivity.
  - intros. now apply endpoint_answers.
Qed.

End GcfProps.

(* ================================================================== *)
(** * Claims about both deployments *)
(* ================================================================== *)

Module ServiceProps.
Import Lib.


(** ** C1 *)




(** ** C2 *)




(** ** C3 *)




(** ** C5 *)




End ServiceProps.

(* ================================================================== *)
(** * Sample runs *)
(* ================================================================== *)

Module SampleRuns.
Import Lib.

Example strip_sample : strip "  I am here.  " = "I am here.".
Proof. reflexivity. Qed.

Example split_ws_sample :
  split_ws "  help   me now " = ["help"; "me"; "now"].
Proof. reflexivity. Qed.

Example lower_sample : lower "Don't SHOUT" = "don't shout".
Proof. reflexivity. Qed.

(** The end-to-end text of the specification, after normalization. *)
Example flagging_sample :
  Flagging.detect_flagged_words_server "I do not feel good, this is urgent!"
  = Ok [Flagging.mk_flagged "urgent" Flagging.urgency 1 Flagging.medium;
        Flagging.mk_flagged "good" Flagging.positive 1 Flagging.low].
Proof. reflexivity. Qed.

(** Detection order is lexicon order, then table order; the sort moves
    the severe entries to the front and keeps the rest as detected. *)
Example flagging_order_sample :
  Flagging.detect_flagged_words_server
    "fine fine fine fine, no pain but real real real real hate"
  = Ok [Flagging.mk_flagged "hate" Flagging.sensitive 1 Flagging.high;
        Flagging.mk_flagged "pain" Flagging.medical 1 Flagging.low;
        Flagging.mk_flagged "fine" Flagging.positive 4 Flagging.low;
        Flagging.mk_flagged "real" Flagging.repetitive 4 Flagging.low].
Proof. reflexivity. Qed.

(** The first configuration is refused, the second is heard. *)
Example retry_sample :
  Main.transcribe_gcs
    (Scenarios.with_speech Scenarios.calm
       (fun config _ =>
          match encoding config with
          | Some _ => Raise (Scenarios.out_of_order "bad encoding")
          | None => Ok [["good"; "could"]; ["morning "]]
          end)
       (Ok (200, "")))
    Scenarios.example_url cold
  = (Ok "good morning",
     logged (connected cold Client)
       [Recognize Main.webm_config "gs://mybucket/folder/file.wav";
        Recognize Main.generic_config "gs://mybucket/folder/file.wav"]).
Proof. reflexivity. Qed.

(** Both configurations are refused. *)
Example transcription_failed_sample :
  fst (Main.nlp_analyze
         (Scenarios.with_speech Scenarios.calm
            (fun _ _ => Raise (Scenarios.out_of_order "no such object"))
            (Ok (200, "")))
         (Scenarios.main_request "" "gs://bucket/a.webm") cold)
  = Ok (Main.ErrorBody "Transcription failed: no such object", 500).
Proof. reflexivity. Qed.

(** The alternate deployment when the transcription API refuses. *)
Example audio_failure_sample :
  fst (Gcf.nlp_analyze
         (Scenarios.with_speech Scenarios.calm (fun _ _ => Ok [])
            (Ok (503, "busy")))
         (Scenarios.gcf_request "" "https://example.org/a.webm") cold)
  = Ok (Gcf.Analysis
          (Gcf.rejected
             ["Audio transcription failed: Whisper API error: 503 - busy"]
             Gcf.no_text_available)
          "user-1", 200).
Proof. reflexivity. Qed.

(** The alternate deployment when no capability can be fetched. *)
Example model_loading_sample :
  fst (Gcf.analyze_transcription
         (Scenarios.with_models Scenarios.calm Scenarios.empty_mount
            Scenarios.offline)
         (PyStr "I am fine.") None cold)
  = Ok (Gcf.unloaded "I am fine." (Scenarios.out_of_order "no network")).
Proof. reflexivity. Qed.

(** A request with neither text nor audio. *)
Example no_input_sample :
  fst (Main.nlp_analyze Scenarios.calm (Scenarios.main_request " " "") cold)
  = Ok (Main.ErrorBody "No text provided and no audio to transcribe", 400)
  /\ fst (Gcf.nlp_analyze Scenarios.calm (Scenarios.gcf_request " " "") cold)
     = Ok (Gcf.Failure "No transcription or audio URL provided", 400).
Proof. split; reflexivity. Qed.

End SampleRuns.

(* ================================================================== *)
(** * Further properties of lexical flagging *)
(* ================================================================== *)

Module FlaggingMore.
Import Flagging FlaggingProps.

(** ** The frequency table counts *)

Lemma dict_lookup_set (d : dict) (k w : string) (v : nat) :
  dict_lookup (dict_set d k v) w
  = if String.eqb k w then Some v else dict_lookup d w.
Proof.
  induction d as [|[k' v'] d IH]; simpl.
  - reflexivity.
  - destruct (String.eqb_spec k' k) as [-> |Hne]; simpl.
    + now destruct (String.eqb k w).
    + rewrite IH. destruct (String.eqb_spec k' w) as [-> |_]; [|reflexivity].
      destruct (String.eqb_spec k w) as [-> |_]; [congruence | reflexivity].
Qed.

Lemma dict_get_set (d : dict) (k w : string) (v : nat) :
  dict_get (dict_set d k v) w = if String.eqb k w then v else dict_get d w.
Proof.
  unfold dict_get. rewrite dict_lookup_set. now destruct (String.eqb k w).
Qed.

Lemma count_word_get (d : dict) (token w : string) :
  dict_get (count_word d token) w
  = dict_get d w
    + occurrences w (filter (fun cw => 2 <? len cw) [clean_word token]).
Proof.
  unfold count_word, occurrences. simpl.
  destruct (2 <? len (clean_word token)); simpl; [|lia].
  rewrite dict_get_set, (String.eqb_sym w).
  destruct (String.eqb_spec (clean_word token) w) as [-> |_]; simpl; lia.
Qed.

Lemma occurrences_app (w : string) (l l' : list string) :
  occurrences w (l ++ l') = occurrences w l + occurrences w l'.
Proof. unfold occurrences. now rewrite filter_app, length_app. Qed.

Lemma counting_loop_get (tokens : list string) (d : dict) (w : string) :
  dict_get (fold_left count_word tokens d) w
  = dict_get d w
    + occurrences w (filter (fun cw => 2 <? len cw) (map clean_word tokens)).
Proof.
  revert d. induction tokens as [|token tokens IH]; intros d; simpl.
  - unfold occurrences. simpl. lia.
  - rewrite IH, count_word_get. unfold occurrences. simpl.
    destruct (2 <? len (clean_word token)); simpl;
      [destruct (String.eqb w (clean_word token))|]; simpl; lia.
Qed.

Lemma table_get (text w : string) :
  dict_get (word_count text) w = occurrences w (kept_tokens text).
Proof. unfold word_count, kept_tokens. now rewrite counting_loop_get. Qed.

Lemma In_of_lookup (d : dict) (k : string) (v : nat) :
  dict_lookup d k = Some v -> In (k, v) d.
Proof.
  induction d as [|[k' v'] d IH]; simpl; [discriminate|].
  destruct (String.eqb_spec k' k) as [-> |_];
    [intros [= ->]; now left | right; now apply IH].
Qed.

Lemma counted_at_least_once (text w : string) (n : nat) :
  dict_lookup (word_count text) w = Some n -> 1 <= n.
Proof.
  intros H. apply In_of_lookup in H.
  pose proof (word_count_ok text) as [_ Hpos].
  rewrite Forall_forall in Hpos. exact (Hpos _ H).
Qed.

Lemma counting_loop_sum (tokens : list string) (d : dict) :
  dict_sum (fold_left count_word tokens d)
  = dict_sum d
    + length (filter (fun cw => 2 <? len cw) (map clean_word tokens)).
Proof.
  assert (S1 : forall (d : dict) k,
             dict_sum (dict_set d k (dict_get d k + 1)) = dict_sum d + 1).
  { intros d0 k. induction d0 as [|[k' v'] d0 IH].
    - reflexivity.
    - unfold dict_get in *. simpl.
      destruct (String.eqb k' k); rewrite !dict_sum_cons; simpl; [lia|].
      rewrite IH. lia. }
  revert d. induction tokens as [|token tokens IH]; intros d; simpl; [lia|].
  rewrite IH. unfold count_word.
  destruct (2 <? len (clean_word token)); simpl; [rewrite S1|]; lia.
Qed.

Lemma table_total (text : string) :
  dict_sum (word_count text) = length (kept_tokens text).
Proof. unfold word_count, kept_tokens. now rewrite counting_loop_sum. Qed.

(** X1. The table maps every word to the number of tokens of the text
    that clean to it ([.get(w, 0)] is 0 for the others), and a word has
    an entry exactly when that number is not 0. *)
Theorem word_count_counts (text w : string) :
  dict_get (word_count text) w = occurrences w (kept_tokens text)
  /\ (dict_lookup (word_count text) w = None
      <-> occurrences w (kept_tokens text) = 0).
Proof.
  split; [apply table_get|].
  rewrite <- table_get. unfold dict_get.
  destruct (dict_lookup (word_count text) w) as [n|] eqn:E; [|tauto].
  split; [discriminate|]. intros ->.
  pose proof (counted_at_least_once text w 0 E). lia.
Qed.

(** X2. [total_words], the sum of the table, is the number of tokens
    counted: tokens of at most two cleaned characters weigh nothing in
    the 5% threshold. *)
Theorem total_words_counts_kept_tokens (text : string) :
  dict_sum (word_count text) = length (kept_tokens text).
Proof.
  unfold word_count, kept_tokens.
  rewrite counting_loop_sum. reflexivity.
Qed.

(** ** What the entries say *)

Lemma lookup_of_In (d : dict) (k : string) (v : nat) :
  NoDup (map fst d) -> In (k, v) d -> dict_lookup d k = Some v.
Proof.
  induction d as [|[k' v'] d IH]; simpl; [tauto|].
  intros Hnd [[= -> ->]|Hin]; [now rewrite String.eqb_refl|].
  apply NoDup_cons_iff in Hnd. destruct Hnd as [Hnin Hnd].
  destruct (String.eqb_spec k' k) as [-> |_]; [|now apply IH].
  exfalso. apply Hnin. now apply (in_map fst) in Hin.
Qed.

Lemma lexicon_pass_forall (P : FlaggedWord -> Prop) (wc : dict) :
  (forall c w n, In (c, w) lexicon -> dict_lookup wc w = Some n ->
                 P (mk_flagged w c n (category_severity c))) ->
  Forall P (lexicon_pass wc).
Proof.
  rewrite lexicon_pass_spec. generalize lexicon as es.
  induction es as [|[c w] es IH]; intros H; simpl; [constructor|].
  apply Forall_app. split.
  - unfold emit. simpl. destruct (dict_lookup wc w) as [n|] eqn:E;
      constructor; [|constructor].
    apply H; [now left | exact E].
  - apply IH. intros c' w' n Hin. apply H. now right.
Qed.

Lemma already_flagged_app (l l' : list FlaggedWord) (w : string) :
  already_flagged (l ++ l') w = already_flagged l w || already_flagged l' w.
Proof. apply existsb_app. Qed.

(** An invariant of the list goes through the repetition pass when the
    entries the pass may add have it. *)
Lemma repetitive_pass_forall (P : FlaggedWord -> Prop) (total : nat)
    (items : dict) (flagged0 added out : list FlaggedWord) :
  repetitive_pass total items (flagged0 ++ added) = Ok out ->
  Forall P (flagged0 ++ added) ->
  (forall w n, In (w, n) items ->
     above_five_percent (n, total) && (3 <? n) = true ->
     already_flagged flagged0 w = false ->
     P (mk_flagged w repetitive n low)) ->
  Forall P out.
Proof.
  revert added. induction items as [|[w n] items IH]; intros added; simpl.
  - now intros [= <-].
  - destruct (true_div n total) as [q|e] eqn:Eq; [|discriminate].
    unfold true_div in Eq. destruct (total =? 0); [discriminate|].
    injection Eq as <-.
    intros Hrun Hall Hnew.
    assert (Hrest : forall w' n', In (w', n') items ->
              above_five_percent (n', total) && (3 <? n') = true ->
              already_flagged flagged0 w' = false ->
              P (mk_flagged w' repetitive n' low))
      by (intros w' n' Hin; apply Hnew; now right).
    destruct (above_five_percent (n, total) && (3 <? n)) eqn:Et;
      [|exact (IH added Hrun Hall Hrest)].
    destruct (already_flagged (flagged0 ++ added) w) eqn:Ef; simpl in Hrun;
      [exact (IH added Hrun Hall Hrest)|].
    rewrite <- app_assoc in Hrun.
    apply (IH _ Hrun); [|exact Hrest].
    rewrite app_assoc. apply Forall_app. split; [exact Hall|].
    constructor; [|constructor].
    apply Hnew; [now left | exact Et |].
    rewrite already_flagged_app in Ef. now apply orb_false_elim in Ef.
Qed.

Lemma detected_forall (P : FlaggedWord -> Prop) (text : string)
    (flagged : list FlaggedWord) :
  detected text = Ok flagged ->
  (forall c w n, In (c, w) lexicon ->
     dict_lookup (word_count text) w = Some n ->
     P (mk_flagged w c n (category_severity c))) ->
  (forall w n, dict_lookup (word_count text) w = Some n ->
     repeated (word_count text) n = true ->
     lexicon_category w = None ->
     P (mk_flagged w repetitive n low)) ->
  Forall P flagged.
Proof.
  unfold detected. intros Hrun Hlex Hrep.
  rewrite <- (app_nil_r (lexicon_pass (word_count text))) in Hrun.
  apply (repetitive_pass_forall P _ _ _ _ _ Hrun).
  - rewrite app_nil_r. now apply lexicon_pass_forall.
  - intros w n Hin Ht Hf.
    pose proof (lookup_of_In _ _ _ (proj1 (word_count_ok text)) Hin) as Hw.
    apply Hrep; [exact Hw | exact Ht |].
    rewrite already_flagged_entries, lexicon_pass_entries, Hw in Hf.
    now destruct (lexicon_category w).
Qed.

Lemma output_forall (P : FlaggedWord -> Prop) (text : string) :
  (forall flagged, detected text = Ok flagged -> Forall P flagged) ->
  exists out, detect_flagged_words_server text = Ok out /\ Forall P out.
Proof.
  intros H. destruct (detected_returns text) as [flagged Hrun].
  exists (sort_reverse sort_key flagged).
  unfold detect_flagged_words_server. rewrite Hrun. split; [reflexivity|].
  eapply Permutation_Forall;
    [apply Permutation_sym, sort_reverse_perm | now apply H].
Qed.

Lemma counted_word_sound (text w : string) (n : nat) :
  dict_lookup (word_count text) w = Some n ->
  n = occurrences w (kept_tokens text) /\ 1 <= n /\ 2 < len w.
Proof.
  intros Hw.
  pose proof (table_get text w) as Hget.
  unfold dict_get in Hget. rewrite Hw in Hget.
  pose proof (counted_at_least_once text w n Hw) as Hpos.
  repeat split; [exact Hget | exact Hpos |].
  rewrite Hget in Hpos. unfold occurrences in Hpos.
  destruct (filter (String.eqb w) (kept_tokens text)) as [|x l] eqn:E;
    [simpl in Hpos; lia|].
  assert (Hin : In x (filter (String.eqb w) (kept_tokens text)))
    by (rewrite E; now left).
  apply filter_In in Hin. destruct Hin as [Hin Hx].
  apply String.eqb_eq in Hx. subst x.
  unfold kept_tokens in Hin. apply filter_In in Hin.
  now apply Nat.ltb_lt.
Qed.

(** X3. Every entry of the output is sound for the text: its severity is
    the one fixed for its category, its frequency is the number of
    tokens of the text that clean to its word (at least one), and its
    word has more than two characters: no shorter word is ever flagged. *)
Theorem entries_are_sound (text : string) :
  exists out,
    detect_flagged_words_server text = Ok out
    /\ Forall (entry_sound text) out.
Proof.
  apply output_forall. intros flagged Hrun.
  apply (detected_forall _ text flagged Hrun); unfold entry_sound; simpl.
  - intros c w n _ Hw. split; [reflexivity|].
    now apply counted_word_sound.
  - intros w n Hw _ _. split; [reflexivity|].
    now apply counted_word_sound.
Qed.

Lemma lexicon_has_no_repetitive (c : category) (w : string) :
  In (c, w) lexicon -> is_repetitive c = false.
Proof.
  assert (H : forallb (fun e => negb (is_repetitive (fst e))) lexicon = true)
    by (vm_compute; reflexivity).
  rewrite forallb_forall in H. intros Hin. apply H in Hin. simpl in Hin.
  now destruct (is_repetitive c).
Qed.

(** X4. A repetitive entry is issued only for a word counted more than 3
    times, in more than 5% of the counted tokens, that the lexicon does
    not list. *)
Theorem repetitive_entries_pass_thresholds (text : string) :
  exists out,
    detect_flagged_words_server text = Ok out
    /\ Forall (repetitive_sound text) out.
Proof.
  apply output_forall. intros flagged Hrun.
  apply (detected_forall _ text flagged Hrun); unfold repetitive_sound; simpl.
  - intros c w n Hin _ Hrep.
    rewrite (lexicon_has_no_repetitive c w Hin) in Hrep. discriminate.
  - intros w n _ Ht Hnone _.
    unfold repeated, above_five_percent in Ht. simpl in Ht.
    rewrite table_total in Ht.
    apply andb_prop in Ht. destruct Ht as [H5 H3].
    apply Nat.ltb_lt in H5, H3. auto.
Qed.

(** ** Case *)

Lemma lower_char_idempotent (c : ascii) :
  lower_char (lower_char c) = lower_char c.
Proof.
  destruct c as [[] [] [] [] [] [] [] []]; reflexivity.
Qed.

Lemma lower_idempotent (s : string) : lower (lower s) = lower s.
Proof.
  unfold lower. induction s as [|c s IH]; simpl; [reflexivity|].
  now rewrite lower_char_idempotent, IH.
Qed.

(** X5. Flagging does not look at the case of the text: the text and its
    lower-case form give the same list. *)
Theorem flagging_ignores_case (text : string) :
  detect_flagged_words_server (lower text) = detect_flagged_words_server text.
Proof.
  unfold detect_flagged_words_server, detected, word_count.
  now rewrite lower_idempotent.
Qed.

End FlaggingMore.

(* ================================================================== *)
(** * Further properties of the primary deployment *)
(* ================================================================== *)

Module MainMore.
Import Lib Main MainProps.

(** ** The locator rewrite *)

Lemma web_facing_parts (parts : list string) :
  match parts with
  | _ :: _ :: "b" :: _ :: "o" :: _ :: _ => true
  | _ => false
  end
  = (5 <? length parts)
    && String.eqb (nth 2 parts "") "b" && String.eqb (nth 4 parts "") "o".
Proof.
  destruct parts as [|p0 [|p1 [|p2 [|p3 [|p4 [|p5 rest]]]]]];
    cbn [length nth Nat.ltb Nat.leb andb]; try reflexivity;
    destruct p2 as [|[[] [] [] [] [] [] [] []] [|? ?]]; try reflexivity;
    destruct p4 as [|[[] [] [] [] [] [] [] []] [|? ?]]; reflexivity.
Qed.

Lemma convert_rewrites (w : World) (url : string) :
  web_facing w url = true ->
  exists bucket object_path,
    convert_to_gs_uri w url
    = ("gs://" ++ bucket ++ "/" ++ unquote w object_path)%string.
Proof.
  unfold web_facing, convert_to_gs_uri. intros H.
  apply andb_prop in H. destruct H as [Hhost Hpath]. rewrite Hhost.
  assert (truthy url = true) as ->
    by (destruct url; [discriminate Hhost | reflexivity]).
  cbn [negb orb].
  destruct (urlparse_path w url) as [path|e]; [|discriminate].
  rewrite web_facing_parts in Hpath. rewrite Hpath.
  now exists (nth 3 (split_on "/" path) ""), (nth 5 (split_on "/" path) "").
Qed.

(** X6. The rewrite is idempotent, for every behaviour of the URL
    library: a canonical locator it has produced, like every locator
    that starts with [gs://], passes through unchanged. *)
Theorem convert_to_gs_uri_idempotent (w : World) (url : string) :
  convert_to_gs_uri w (convert_to_gs_uri w url) = convert_to_gs_uri w url
  /\ (forall rest,
        convert_to_gs_uri w ("gs://" ++ rest) = ("gs://" ++ rest)%string).
Proof.
  split; [|reflexivity].
  destruct (web_facing w url) eqn:E.
  - destruct (convert_rewrites w url E) as (bucket & object_path & ->).
    reflexivity.
  - now rewrite !(convert_passes_through w url E).
Qed.

(** ** The transcript *)

Lemma join_transcripts_run (results : list (list string)) (transcript : string) :
  join_transcripts results transcript
  = if existsb no_alternative results
    then Raise (mk_exn IndexError "list index out of range")
    else Ok (transcript ++ first_alternatives results)%string.
Proof.
  revert transcript. unfold first_alternatives.
  induction results as [|[|first others] results IH]; intros transcript.
  - simpl. now rewrite sapp_nil_r.
  - reflexivity.
  - cbn [join_transcripts index nth_error existsb no_alternative orb map hd].
    rewrite IH. destruct (existsb no_alternative results); [reflexivity|].
    f_equal. rewrite sapp_assoc. f_equal.
    destruct results as [|r results]; simpl;
      [now rewrite !sapp_nil_r | now rewrite sapp_assoc].
Qed.

(** X7. When the provider answers, the transcript of an attempt is the
    first alternative of every result, in order, each followed by one
    space, trimmed; an answer in which some result has no alternative
    makes the attempt fail with an IndexError, like a refused call. *)
Theorem transcript_joins_first_alternatives
    (w : World) (config : RecognitionConfig) (uri : string)
    (results : list (list string)) :
  recognize w config uri = Ok results ->
  recognition w config uri
  = if existsb no_alternative results
    then Raise (mk_exn IndexError "list index out of range")
    else Ok (strip (first_alternatives results)).
Proof.
  intros H. unfold recognition. rewrite H, join_transcripts_run.
  now destruct (existsb no_alternative results).
Qed.

Lemma transcript_joins_first_alternatives_witness :
  recognition Scenarios.two_results webm_config "gs://bucket/a.webm"
  = Ok "good morning".
Proof.
  exact (transcript_joins_first_alternatives Scenarios.two_results webm_config
           "gs://bucket/a.webm" [["good"; "could"]; ["morning"]] eq_refl).
Defined.

(** X8. A transcript [transcribe_gcs] returns is trimmed: it neither
    starts nor ends with white space, whichever attempt gave it. *)
Theorem transcript_is_trimmed (w : World) (uri transcript : string)
    (g g' : Globals) :
  transcribe_gcs w uri g = (Ok transcript, g') ->
  strip transcript = transcript.
Proof.
  rewrite transcribe_gcs_run. cbv zeta.
  assert (T : forall config locator t,
             recognition w config locator = Ok t -> strip t = t).
  { intros config locator t. unfold recognition.
    destruct (recognize w config locator) as [results|e]; [|discriminate].
    destruct (join_transcripts results "") as [joined|e]; [|discriminate].
    intros [= <-]. apply strip_idempotent. }
  destruct (get_speech_client w g) as [[client|e] g0]; [|discriminate].
  destruct (audio_error w _); [discriminate|].
  destruct (config_error w webm_config); [discriminate|].
  destruct (recognition w webm_config _) as [t|e] eqn:E1.
  - intros [= <- _]. exact (T _ _ _ E1).
  - destruct (config_error w generic_config); [discriminate|].
    intros [= H _]. exact (T _ _ _ H).
Qed.

Lemma transcript_is_trimmed_witness :
  fst (transcribe_gcs Scenarios.calm "gs://bucket/a.webm" cold)
    = Ok "hello there"
  /\ strip "hello there" = "hello there".
Proof.
  split; [reflexivity|].
  exact (transcript_is_trimmed Scenarios.calm "gs://bucket/a.webm"
           "hello there" cold
           (logged (connected cold Client)
              [Recognize webm_config "gs://bucket/a.webm"])
           eq_refl).
Defined.

(** ** The capability registry *)

Ltac split_world H :=
  repeat
    (match type of H with
     | context [match load_error ?w ?l ?loc with _ => _ end] =>
         destruct (load_error w l loc) eqn:?; simpl in H
     | context [if path_exists ?w ?p then _ else _] =>
         destruct (path_exists w p) eqn:?; simpl in H
     end).

Lemma warm_cache_is_returned (w : World) (g : Globals)
    (s n p t : handle) :
  cached g = (Some s, Some n, Some p, Some t) ->
  get_models w g = (Ok (Some s, Some n, Some p, Some t), g).
Proof.
  destruct g as [gs gn gp gt sc tr]. unfold cached. simpl.
  intros [= -> -> -> ->]. reflexivity.
Qed.

Lemma keeps_refl (g : Globals) : keeps g g.
Proof. repeat split; auto. Qed.

Lemma keeps_trans (g1 g2 g3 : Globals) :
  keeps g1 g2 -> keeps g2 g3 -> keeps g1 g3.
Proof.
  intros (A1 & A2 & A3 & A4) (B1 & B2 & B3 & B4).
  repeat split; auto.
Qed.

Lemma bind_ok_inv {S A B} (m : M S A) (k : A -> M S B) (s s' : S) (b : B) :
  bind m k s = (Ok b, s') ->
  exists a s0, m s = (Ok a, s0) /\ k a s0 = (Ok b, s').
Proof.
  unfold bind. destruct (m s) as [[a|e] s0]; [|discriminate].
  intros H. now exists a, s0.
Qed.

(** The state a sequence ends in is the state its first step ends in,
    or a state the rest reaches from there. *)
Lemma bind_state {S A B} (m : M S A) (k : A -> M S B) (s : S) :
  snd (bind m k s) = snd (m s)
  \/ exists a, m s = (Ok a, snd (m s))
               /\ snd (bind m k s) = snd (k a (snd (m s))).
Proof.
  unfold bind. destruct (m s) as [[a|e] s0]; simpl; [right | now left].
  now exists a.
Qed.

Lemma bind_keeps {A B} (m : M Globals A) (k : A -> M Globals B) (g : Globals) :
  keeps g (snd (m g)) ->
  (forall a g1, keeps g1 (snd (k a g1))) ->
  keeps g (snd (bind m k g)).
Proof.
  intros Hm Hk. destruct (bind_state m k g) as [-> |(a & _ & ->)];
    [exact Hm | eapply keeps_trans; [exact Hm | apply Hk]].
Qed.

Ltac split_goal_world :=
  repeat
    (match goal with
     | |- context [match load_error ?w ?l ?loc with _ => _ end] =>
         destruct (load_error w l loc); simpl
     | |- context [if path_exists ?w ?p then _ else _] =>
         destruct (path_exists w p); simpl
     end).

Ltac one_acquisition :=
  unfold keeps, acquire_sentiment, acquire_ner, acquire_pos, acquire_topic,
    load, log, set_sentiment_model, set_ner_model, set_pos_model,
    set_topic_classifier, when, try_except, bind, get, modify, ret, raise;
  simpl.

Lemma acquire_sentiment_keeps (w : World) (g : Globals) :
  keeps g (snd (acquire_sentiment w g)).
Proof.
  destruct g as [[s|] n p t sc tr]; one_acquisition; split_goal_world;
    repeat split; intros m H; try discriminate H; exact H.
Qed.

Lemma acquire_ner_keeps (w : World) (g : Globals) :
  keeps g (snd (acquire_ner w g)).
Proof.
  destruct g as [s [n|] p t sc tr]; one_acquisition; split_goal_world;
    repeat split; intros m H; try discriminate H; exact H.
Qed.

Lemma acquire_pos_keeps (w : World) (g : Globals) :
  keeps g (snd (acquire_pos w g)).
Proof.
  destruct g as [s n [p|] t sc tr]; one_acquisition; split_goal_world;
    repeat split; intros m H; try discriminate H; exact H.
Qed.

Lemma acquire_topic_keeps (w : World) (g : Globals) :
  keeps g (snd (acquire_topic w g)).
Proof.
  destruct g as [s n p [t|] sc tr]; one_acquisition; split_goal_world;
    repeat split; intros m H; try discriminate H; exact H.
Qed.

Lemma get_models_keeps (w : World) (g : Globals) :
  keeps g (snd (get_models w g)).
Proof.
  unfold get_models.
  assert (H : keeps g (snd
            (bind (acquire_sentiment w) (fun _ =>
             bind (acquire_ner w) (fun _ =>
             bind (acquire_pos w) (fun _ =>
             bind (acquire_topic w) (fun _ =>
             bind get (fun g0 => ret (cached g0)))))) g))).
  { apply bind_keeps; [apply acquire_sentiment_keeps|]. intros _ g1.
    apply bind_keeps; [apply acquire_ner_keeps|]. intros _ g2.
    apply bind_keeps; [apply acquire_pos_keeps|]. intros _ g3.
    apply bind_keeps; [apply acquire_topic_keeps|]. intros _ g4.
    apply keeps_refl. }
  unfold try_except.
  destruct (bind (acquire_sentiment w) _ g) as [[ms|e] g']; exact H.
Qed.

(** X9. [get_models] never replaces nor drops a capability that is
    cached, whether it returns or raises; and with the four cached it
    returns them and calls no loader, whatever is on the mount and
    whether or not a load would succeed. *)
Theorem cached_models_are_kept (w : World) (g : Globals) :
  keeps g (snd (get_models w g))
  /\ (forall s n p t,
        cached g = (Some s, Some n, Some p, Some t) ->
        get_models w g = (Ok (cached g), g)).
Proof.
  split; [apply get_models_keeps|].
  intros s n p t H. rewrite (warm_cache_is_returned w g s n p t H).
  now rewrite H.
Qed.

Lemma acquire_sentiment_sets (w : World) (g g' : Globals) :
  acquire_sentiment w g = (Ok tt, g') ->
  exists m, _sentiment_model g' = Some m.
Proof.
  destruct g as [[s|] n p t sc tr]; one_acquisition; intros H;
    split_world H; try discriminate H; injection H as <-; simpl; eauto.
Qed.

Lemma acquire_ner_sets (w : World) (g g' : Globals) :
  acquire_ner w g = (Ok tt, g') -> exists m, _ner_model g' = Some m.
Proof.
  destruct g as [s [n|] p t sc tr]; one_acquisition; intros H;
    split_world H; try discriminate H; injection H as <-; simpl; eauto.
Qed.

(** X10. What [get_models] returns is what it leaves in the cache, and
    always holds a sentiment model and an entity tagger: only the POS
    tagger and the topic classifier can be [None]. *)
Theorem returned_models_are_cached (w : World) (g g' : Globals) (ms : models) :
  get_models w g = (Ok ms, g') ->
  ms = cached g'
  /\ exists s n, _sentiment_model g' = Some s /\ _ner_model g' = Some n.
Proof.
  unfold get_models, try_except.
  destruct (bind (acquire_sentiment w) _ g) as [[ms0|e] g0] eqn:Run;
    [|discriminate].
  intros [= -> ->].
  apply bind_ok_inv in Run. destruct Run as ([] & g1 & H1 & Run).
  apply bind_ok_inv in Run. destruct Run as ([] & g2 & H2 & Run).
  apply bind_ok_inv in Run. destruct Run as ([] & g3 & H3 & Run).
  apply bind_ok_inv in Run. destruct Run as ([] & g4 & H4 & Run).
  unfold bind, get, ret in Run. injection Run as <- <-.
  split; [reflexivity|].
  destruct (acquire_sentiment_sets w g g1 H1) as [s Hs].
  destruct (acquire_ner_sets w g1 g2 H2) as [n Hn].
  pose proof (acquire_ner_keeps w g1) as K2. rewrite H2 in K2.
  pose proof (acquire_pos_keeps w g2) as K3. rewrite H3 in K3.
  pose proof (acquire_topic_keeps w g3) as K4. rewrite H4 in K4.
  simpl in K2, K3, K4.
  exists s, n. split.
  - apply K4, K3, K2, Hs.
  - apply K4, K3, Hn.
Qed.

Lemma returned_models_are_cached_witness :
  (Some (Loaded ClassifierLoad (Name "sentiment")),
   Some (Loaded SequenceTaggerLoad (Name "ner")),
   None,
   Some (Loaded Pipeline (Name "facebook/bart-large-mnli")))
  = cached (snd (get_models Scenarios.no_pos cold))
  /\ exists s n,
       _sentiment_model (snd (get_models Scenarios.no_pos cold)) = Some s
       /\ _ner_model (snd (get_models Scenarios.no_pos cold)) = Some n.
Proof.
  exact (returned_models_are_cached Scenarios.no_pos cold
           (snd (get_models Scenarios.no_pos cold)) _ eq_refl).
Defined.

Lemma acquire_topic_later (w : World) (g : Globals) :
  later g (snd (acquire_topic w g)).
Proof.
  destruct g as [s n p [t|] sc tr]; unfold later; one_acquisition;
    split_goal_world; eexists; try reflexivity;
    now rewrite app_nil_r.
Qed.

(** X11. A POS tagger that a failed fetch has left [None] is fetched
    again by the next call of [get_models]: with the sentiment model and
    the entity tagger cached and no POS file on the mount, the call
    fetches ['pos'] first of all, after evicting its download cache if
    there is one. *)
Theorem unavailable_pos_is_fetched_again (w : World) (g : Globals)
    (s n : handle) :
  _sentiment_model g = Some s -> _ner_model g = Some n ->
  _pos_model g = None -> path_exists w POS_MODEL_PATH = false ->
  exists calls,
    trace (snd (get_models w g))
    = trace g
      ++ (if path_exists w pos_cache_dir then [Evict pos_cache_dir] else [])
      ++ Load SequenceTaggerLoad (Name "pos") :: calls.
Proof.
  intros Hs Hn Hp Hfile.
  assert (H1 : acquire_sentiment w g = (Ok tt, g))
    by (unfold acquire_sentiment, bind, get, when; now rewrite Hs).
  assert (H2 : acquire_ner w g = (Ok tt, g))
    by (unfold acquire_ner, bind, get, when; now rewrite Hn).
  unfold get_models.
  assert (E : forall A (m : M Globals A) g0,
             snd (try_except m (fun e => raise e) g0) = snd (m g0)).
  { intros A m g0. unfold try_except, raise.
    now destruct (m g0) as [[a|e] g1]. }
  rewrite E, (bind_ok _ _ _ _ _ H1), (bind_ok _ _ _ _ _ H2).
  rewrite (bind_ok _ _ _ _ _ (acquire_pos_fetch w g Hfile Hp)).
  match goal with |- context [bind (acquire_topic w) ?k ?g2] =>
    destruct (acquire_topic_later w g2) as [calls Hc];
    assert (Hsame : snd (bind (acquire_topic w) k g2)
                    = snd (acquire_topic w g2))
      by (unfold bind, get, ret;
          now destruct (acquire_topic w g2) as [[[]|e] g3]);
    rewrite Hsame, Hc
  end.
  exists calls. simpl. rewrite <- !app_assoc. reflexivity.
Qed.

Lemma unavailable_pos_is_fetched_again_witness :
  exists calls,
    trace (snd (get_models Scenarios.no_pos
                  (snd (get_models Scenarios.no_pos cold))))
    = trace (snd (get_models Scenarios.no_pos cold))
      ++ Load SequenceTaggerLoad (Name "pos") :: calls.
Proof.
  exact (unavailable_pos_is_fetched_again Scenarios.no_pos
           (snd (get_models Scenarios.no_pos cold))
           _ _ eq_refl eq_refl eq_refl eq_refl).
Defined.

(** ** The analysis *)

(** X12. Validation comes before everything else: for a text that is
    missing, no string, empty, or emptied by normalization, the analysis
    raises a ValueError and leaves the cache as it was, without a call
    to any loader. *)
Theorem invalid_text_loads_nothing (w : World) (transcription : pyval)
    (g : Globals) :
  normalizes_to_nothing w transcription = true ->
  exists e,
    analyze_transcription w transcription g = (Raise e, g)
    /\ class_of e = ValueError.
Proof.
  unfold normalizes_to_nothing, analyze_transcription.
  destruct transcription as [|raw|]; intros H.
  - now exists invalid_input.
  - destruct (truthy raw); simpl in H |- *.
    + apply negb_true_iff in H. rewrite H. now exists empty_after_cleaning.
    + now exists invalid_input.
  - now exists invalid_input.
Qed.

Lemma invalid_text_loads_nothing_witness :
  exists e,
    analyze_transcription Scenarios.calm (PyStr "  ") cold = (Raise e, cold)
    /\ class_of e = ValueError.
Proof.
  exact (invalid_text_loads_nothing Scenarios.calm (PyStr "  ") cold eq_refl).
Defined.

Lemma count_tag_sum (pos_counts : dict nat) (base : string) :
  Flagging.dict_sum (count_tag pos_counts base)
  = Flagging.dict_sum pos_counts + 1.
Proof.
  unfold count_tag. induction pos_counts as [|[k v] d IH].
  - reflexivity.
  - simpl. destruct (String.eqb k base);
      rewrite !FlaggingProps.dict_sum_cons; simpl; [lia|].
    rewrite IH. lia.
Qed.

(** X13. The counting loop of the POS distribution adds, to the counts
    it starts from, one for every token that carries a non-empty tag: a
    token without a tag is skipped and counts nowhere, so the counts of
    the result add up to the number of tagged tokens. *)
Theorem pos_counts_add_up (tags : list (option string))
    (pos_counts : dict nat) :
  Flagging.dict_sum (fold_left count_tagged tags pos_counts)
  = Flagging.dict_sum pos_counts + length (tagged tags).
Proof.
  revert pos_counts. induction tags as [|[t|] tags IH]; intros d; simpl.
  - lia.
  - rewrite IH, length_app.
    destruct (truthy t); simpl; [rewrite count_tag_sum|]; lia.
  - now rewrite IH.
Qed.

(** ** The endpoint *)

Lemma split_on_go_nonempty (sep : ascii) (cur s : string) :
  split_on_go sep cur s <> [].
Proof.
  revert cur. induction s as [|c s IH]; intros cur; simpl; [discriminate|].
  destruct (Ascii.eqb c sep); [discriminate | apply IH].
Qed.

(** X14. A header that starts with ['Bearer '] has a second piece when
    split at spaces: reading the token raises no IndexError, whatever
    follows the prefix, be it nothing. *)
Theorem bearer_token (auth_header : string) :
  startswith "Bearer " auth_header = true ->
  exists token, index (split_on " " auth_header) 1 = Ok token.
Proof.
  unfold startswith. intros H.
  do 7 (destruct auth_header as [|? auth_header]; [discriminate H|];
        simpl in H;
        match type of H with
        | (if ?d then _ else _) = true =>
            destruct d as [<-|]; [|discriminate H]
        end).
  unfold split_on. simpl.
  destruct (split_on_go " " "" auth_header) as [|token rest] eqn:E;
    [now apply split_on_go_nonempty in E|].
  now exists token.
Qed.

Lemma bearer_token_witness :
  exists token, index (split_on " " "Bearer ") 1 = Ok token.
Proof. exact (bearer_token "Bearer " eq_refl). Defined.

Lemma on_error_answers (e : exn) (g : Globals) :
  exists b st, on_error e g = (Ok (b, st), g) /\ In st statuses.
Proof.
  unfold on_error, statuses. destruct (is_value_error e);
    eexists; eexists; (split; [reflexivity | simpl; tauto]).
Qed.

Ltac status_of H :=
  unfold ret in H; inversion H; subst; unfold statuses; simpl; tauto.

Lemma analyze_text_status (w : World) (uid : string)
    (transcribed : option string) (text : string) (g g' : Globals)
    (b : body) (st : nat) :
  analyze_text w uid transcribed text g = (Ok (b, st), g') -> In st statuses.
Proof.
  unfold analyze_text, statuses. destruct (truthy text).
  - intros H. apply bind_ok_inv in H. destruct H as (a & g0 & _ & H).
    status_of H.
  - intros H. status_of H.
Qed.

(** X15. The endpoint raises nothing to its framework: for every request
    and every behaviour of its collaborators it answers with a body and
    one of the statuses 200, 204, 400, 401 and 500. *)
Theorem endpoint_always_answers (w : World) (request : Request) (g : Globals) :
  exists b st g',
    nlp_analyze w request g = (Ok (b, st), g') /\ In st statuses.
Proof.
  unfold nlp_analyze.
  destruct (String.eqb (method request) "OPTIONS");
    [do 3 eexists; split; [reflexivity | unfold statuses; simpl; tauto]|].
  unfold try_except at 1.
  match goal with |- context [match ?m g with _ => _ end] =>
    destruct (m g) as [[[b st]|e] g'] eqn:Run
  end.
  2:{ destruct (on_error_answers e g') as (b & st & -> & Hst).
      now exists b, st, g'. }
  exists b, st, g'. split; [reflexivity|].
  destruct (authorization request) as [h|];
    [|status_of Run].
  destruct (negb (truthy h) || negb (startswith "Bearer " h));
    [status_of Run|].
  apply bind_ok_inv in Run. destruct Run as (token & g1 & _ & Run).
  apply bind_ok_inv in Run. destruct Run as (uid & g2 & _ & Run).
  destruct (negb (is_json request));
    [status_of Run|].
  destruct (truthy (strip (audioUrl request)));
    [|exact (analyze_text_status _ _ _ _ _ _ _ _ Run)].
  apply bind_ok_inv in Run. destruct Run as ([early|text] & g3 & Hin & Run).
  - unfold ret in Run. inversion Run; subst. clear Run.
    unfold try_except, bind in Hin.
    destruct (transcribe_gcs w _ g2) as [[t|e] g4].
    + destruct (negb (truthy t)); [status_of Hin | discriminate Hin].
    + status_of Hin.
  - exact (analyze_text_status _ _ _ _ _ _ _ _ Run).
Qed.

(** X16. A token the identity provider refuses is not answered with
    401: the refusal goes to the handlers of the endpoint, which answer
    400 with its message when it is a ValueError, and 500 "Internal
    server error" otherwise.  Nothing else is called. *)
Theorem refused_token_is_answered_400_or_500 (w : World) (request : Request)
    (auth_header token : string) (refusal : exn) (g : Globals) :
  String.eqb (method request) "OPTIONS" = false ->
  authorization request = Some auth_header ->
  startswith "Bearer " auth_header = true ->
  index (split_on " " auth_header) 1 = Ok token ->
  verify_id_token w token = Raise refusal ->
  nlp_analyze w request g
  = (Ok (if is_value_error refusal
         then (ErrorBody (str_of refusal), 400)
         else (ErrorBody "Internal server error", 500)), g).
Proof.
  intros Hm Hh Hb Ht Hv. unfold nlp_analyze. rewrite Hm, Hh, Hb.
  assert (truthy auth_header = true) as ->
    by (destruct auth_header; [discriminate Hb | reflexivity]).
  cbn [negb orb].
  unfold try_except, bind at 1, lift at 1. rewrite Ht.
  unfold bind at 1, lift at 1. rewrite Hv.
  unfold on_error. now destruct (is_value_error refusal).
Qed.

Lemma refused_token_is_answered_400_or_500_witness :
  nlp_analyze (Scenarios.with_verifier Scenarios.calm Scenarios.expired)
    (Scenarios.main_request "I am fine." "") cold
  = (Ok (ErrorBody "Internal server error", 500), cold)
  /\ nlp_analyze (Scenarios.with_verifier Scenarios.calm Scenarios.malformed)
       (Scenarios.main_request "I am fine." "") cold
     = (Ok (ErrorBody "Illegal ID token provided", 400), cold).
Proof.
  split.
  - exact (refused_token_is_answered_400_or_500
             (Scenarios.with_verifier Scenarios.calm Scenarios.expired)
             (Scenarios.main_request "I am fine." "")
             "Bearer token-1" "token-1" Scenarios.expired cold
             eq_refl eq_refl eq_refl eq_refl eq_refl).
  - exact (refused_token_is_answered_400_or_500
             (Scenarios.with_verifier Scenarios.calm Scenarios.malformed)
             (Scenarios.main_request "I am fine." "")
             "Bearer token-1" "token-1" Scenarios.malformed cold
             eq_refl eq_refl eq_refl eq_refl eq_refl).
Defined.



End MainMore.

(* ================================================================== *)
(** * Further properties of the alternate deployment *)
(* ================================================================== *)

Module GcfMore.
Import Lib Gcf GcfProps.

(** ** The capability registry *)

Ltac one_acquisition :=
  unfold keeps, acquire, load, log, set_sentiment_model, set_ner_model,
    set_pos_model, set_topic_classifier, when, try_except, bind, get,
    modify, ret, raise;
  simpl.

Ltac split_goal_world :=
  repeat
    (match goal with
     | |- context [match load_error ?w ?l ?loc with _ => _ end] =>
         destruct (load_error w l loc); simpl
     end).

Ltac kept := repeat split; intros m H; try discriminate H; exact H.

Lemma sentiment_kept (w : World) (l : loader) (loc : location) (g : Globals) :
  keeps g (snd (acquire _sentiment_model set_sentiment_model w l loc g)).
Proof.
  destruct g as [[s|] n p t sc tr]; one_acquisition; split_goal_world; kept.
Qed.

Lemma ner_kept (w : World) (l : loader) (loc : location) (g : Globals) :
  keeps g (snd (acquire _ner_model set_ner_model w l loc g)).
Proof.
  destruct g as [s [n|] p t sc tr]; one_acquisition; split_goal_world; kept.
Qed.

Lemma pos_kept (w : World) (l : loader) (loc : location) (g : Globals) :
  keeps g (snd (acquire _pos_model set_pos_model w l loc g)).
Proof.
  destruct g as [s n [p|] t sc tr]; one_acquisition; split_goal_world; kept.
Qed.

Lemma topic_kept (w : World) (l : loader) (loc : location) (g : Globals) :
  keeps g (snd (acquire _topic_classifier set_topic_classifier w l loc g)).
Proof.
  destruct g as [s n p [t|] sc tr]; one_acquisition; split_goal_world; kept.
Qed.

Ltac set_by H :=
  one_acquisition; intros H;
  repeat
    (match type of H with
     | context [match load_error ?w ?l ?loc with _ => _ end] =>
         destruct (load_error w l loc); simpl in H
     end);
  try discriminate H; injection H as <-; simpl; eauto.

Lemma sentiment_set (w : World) (l : loader) (loc : location)
    (g g' : Globals) :
  acquire _sentiment_model set_sentiment_model w l loc g = (Ok tt, g') ->
  exists m, _sentiment_model g' = Some m.
Proof. destruct g as [[s|] n p t sc tr]; set_by H. Qed.

Lemma ner_set (w : World) (l : loader) (loc : location) (g g' : Globals) :
  acquire _ner_model set_ner_model w l loc g = (Ok tt, g') ->
  exists m, _ner_model g' = Some m.
Proof. destruct g as [s [n|] p t sc tr]; set_by H. Qed.

Lemma pos_set (w : World) (l : loader) (loc : location) (g g' : Globals) :
  acquire _pos_model set_pos_model w l loc g = (Ok tt, g') ->
  exists m, _pos_model g' = Some m.
Proof. destruct g as [s n [p|] t sc tr]; set_by H. Qed.

Lemma topic_set (w : World) (l : loader) (loc : location) (g g' : Globals) :
  acquire _topic_classifier set_topic_classifier w l loc g = (Ok tt, g') ->
  exists m, _topic_classifier g' = Some m.
Proof. destruct g as [s n p [t|] sc tr]; set_by H. Qed.

(** A chain that comes to its end has acquired, or found, all four. *)
Lemma chain_completes (w : World) (l1 l2 l3 l4 : loader)
    (loc1 loc2 loc3 loc4 : location) (g g' : Globals) :
  bind (acquire _sentiment_model set_sentiment_model w l1 loc1) (fun _ =>
  bind (acquire _ner_model set_ner_model w l2 loc2) (fun _ =>
  bind (acquire _pos_model set_pos_model w l3 loc3) (fun _ =>
  acquire _topic_classifier set_topic_classifier w l4 loc4))) g
  = (Ok tt, g') ->
  complete g'.
Proof.
  intros Run.
  apply MainMore.bind_ok_inv in Run. destruct Run as ([] & g1 & H1 & Run).
  apply MainMore.bind_ok_inv in Run. destruct Run as ([] & g2 & H2 & Run).
  apply MainMore.bind_ok_inv in Run. destruct Run as ([] & g3 & H3 & H4).
  destruct (sentiment_set _ _ _ _ _ H1) as [s Hs].
  destruct (ner_set _ _ _ _ _ H2) as [n Hn].
  destruct (pos_set _ _ _ _ _ H3) as [p Hp].
  destruct (topic_set _ _ _ _ _ H4) as [t Ht].
  pose proof (ner_kept w l2 loc2 g1) as K2. rewrite H2 in K2.
  pose proof (pos_kept w l3 loc3 g2) as K3. rewrite H3 in K3.
  pose proof (topic_kept w l4 loc4 g3) as K4. rewrite H4 in K4.
  simpl in K2, K3, K4.
  exists s, n, p, t. unfold cached.
  rewrite Ht, (proj1 (proj2 (proj2 K4)) _ Hp).
  rewrite (proj1 (proj2 K4) _ (proj1 (proj2 K3) _ Hn)).
  rewrite (proj1 K4 _ (proj1 K3 _ (proj1 K2 _ Hs))).
  reflexivity.
Qed.

Lemma chain_keeps (w : World) (l1 l2 l3 l4 : loader)
    (loc1 loc2 loc3 loc4 : location) (g : Globals) :
  keeps g (snd
    (bind (acquire _sentiment_model set_sentiment_model w l1 loc1) (fun _ =>
     bind (acquire _ner_model set_ner_model w l2 loc2) (fun _ =>
     bind (acquire _pos_model set_pos_model w l3 loc3) (fun _ =>
     acquire _topic_classifier set_topic_classifier w l4 loc4))) g)).
Proof.
  apply MainMore.bind_keeps; [apply sentiment_kept|]. intros _ g1.
  apply MainMore.bind_keeps; [apply ner_kept|]. intros _ g2.
  apply MainMore.bind_keeps; [apply pos_kept|]. intros _ g3.
  apply topic_kept.
Qed.

Lemma get_models_cases (w : World) (g : Globals) :
  (exists g', fast_chain w g = (Ok tt, g')
              /\ get_models w g = (Ok (cached g'), g'))
  \/ (exists e g1 g',
        fast_chain w g = (Raise e, g1)
        /\ fallback_chain w g1 = (Ok tt, g')
        /\ get_models w g = (Ok (cached g'), g'))
  \/ (exists e g1 e2 g',
        fast_chain w g = (Raise e, g1)
        /\ fallback_chain w g1 = (Raise e2, g')
        /\ get_models w g = (Raise e, g')).
Proof.
  destruct (fast_chain w g) as [[[]|e] g1] eqn:Hf.
  - left. exists g1. split; [reflexivity|].
    unfold get_models, try_except. rewrite (bind_ok _ _ _ _ _ Hf).
    reflexivity.
  - destruct (fallback_chain w g1) as [[[]|e2] g'] eqn:Hb.
    + right. left. exists e, g1, g'. split; [reflexivity|]. split; [exact Hb|].
      unfold get_models, try_except at 1. rewrite (bind_raise _ _ _ _ _ Hf).
      unfold try_except. rewrite (bind_ok _ _ _ _ _ Hb). reflexivity.
    + right. right. exists e, g1, e2, g'.
      split; [reflexivity|]. split; [exact Hb|].
      unfold get_models, try_except at 1. rewrite (bind_raise _ _ _ _ _ Hf).
      unfold try_except. rewrite (bind_raise _ _ _ _ _ Hb). reflexivity.
Qed.

Lemma get_models_complete (w : World) (g g' : Globals) (ms : models) :
  get_models w g = (Ok ms, g') -> ms = cached g' /\ complete g'.
Proof.
  intros H.
  destruct (get_models_cases w g)
    as [(g1 & Hf & E)|[(e & g1 & g2 & Hf & Hb & E)|(e & g1 & e2 & g2 & _ & _ & E)]];
    rewrite E in H; try discriminate H; injection H as <- <-;
    (split; [reflexivity|]).
  - exact (chain_completes _ _ _ _ _ _ _ _ _ _ _ Hf).
  - exact (chain_completes _ _ _ _ _ _ _ _ _ _ _ Hb).
Qed.

(** X18. What [get_models] returns is what it leaves in the cache, and
    it is complete: none of the four capabilities is [None]. *)
Theorem returned_models_are_complete (w : World) (g g' : Globals)
    (ms : models) :
  get_models w g = (Ok ms, g') -> ms = cached g' /\ complete g'.
Proof.
  intros H.
  destruct (get_models_cases w g)
    as [(g1 & Hf & E)|[(e & g1 & g2 & Hf & Hb & E)|(e & g1 & e2 & g2 & _ & _ & E)]];
    rewrite E in H; try discriminate H; injection H as <- <-;
    (split; [reflexivity|]).
  - exact (chain_completes _ _ _ _ _ _ _ _ _ _ _ Hf).
  - exact (chain_completes _ _ _ _ _ _ _ _ _ _ _ Hb).
Qed.

Lemma returned_models_are_complete_witness :
  (Some (Loaded ClassifierLoad (Name "sentiment-fast")),
   Some (Loaded ClassifierLoad (Name "ner")),
   Some (Loaded SequenceTaggerLoad (Name "pos")),
   Some (Loaded Pipeline (Name "facebook/bart-large-mnli")))
  = cached (snd (get_models Scenarios.no_fast_ner cold))
  /\ complete (snd (get_models Scenarios.no_fast_ner cold)).
Proof.
  exact (returned_models_are_complete Scenarios.no_fast_ner cold
           (snd (get_models Scenarios.no_fast_ner cold)) _ eq_refl).
Defined.

(** X19. When both chains fail, what [get_models] raises is the error of
    the fast chain, the first one met; the error of the fallback chain
    is dropped. *)
Theorem first_load_error_is_raised (w : World) (g g' : Globals) (e : exn) :
  get_models w g = (Raise e, g') ->
  exists g1 e2,
    fast_chain w g = (Raise e, g1) /\ fallback_chain w g1 = (Raise e2, g').
Proof.
  intros H.
  destruct (get_models_cases w g)
    as [(g1 & _ & E)|[(e1 & g1 & g2 & _ & _ & E)|(e1 & g1 & e2 & g2 & Hf & Hb & E)]];
    rewrite E in H; try discriminate H.
  injection H as <- <-. now exists g1, e2.
Qed.

Lemma first_load_error_is_raised_witness :
  exists g1 e2,
    fast_chain
      (Scenarios.with_models Scenarios.calm Scenarios.empty_mount
         Scenarios.offline) cold
    = (Raise (Scenarios.out_of_order "no network"), g1)
    /\ fallback_chain
         (Scenarios.with_models Scenarios.calm Scenarios.empty_mount
            Scenarios.offline) g1
       = (Raise e2,
          logged cold [Load ClassifierLoad (Name "sentiment-fast");
                       Load ClassifierLoad (Name "sentiment")]).
Proof.
  exact (first_load_error_is_raised
           (Scenarios.with_models Scenarios.calm Scenarios.empty_mount
              Scenarios.offline)
           cold _ _ eq_refl).
Defined.

Lemma gcf_get_models_keeps (w : World) (g : Globals) :
  keeps g (snd (get_models w g)).
Proof.
  destruct (get_models_cases w g)
    as [(g1 & Hf & E)|[(e & g1 & g2 & Hf & Hb & E)|(e & g1 & e2 & g2 & Hf & Hb & E)]];
    rewrite E; simpl.
  - pose proof (chain_keeps w ClassifierLoad ClassifierLoad
                  SequenceTaggerLoad PipelineCPU (Name "sentiment-fast")
                  (Name "ner-fast") (Name "pos-fast") bart g) as K.
    fold (fast_chain w) in K. now rewrite Hf in K.
  - pose proof (chain_keeps w ClassifierLoad ClassifierLoad
                  SequenceTaggerLoad PipelineCPU (Name "sentiment-fast")
                  (Name "ner-fast") (Name "pos-fast") bart g) as K.
    fold (fast_chain w) in K. rewrite Hf in K.
    pose proof (chain_keeps w ClassifierLoad ClassifierLoad
                  SequenceTaggerLoad Pipeline (Name "sentiment")
                  (Name "ner") (Name "pos") bart g1) as K'.
    fold (fallback_chain w) in K'. rewrite Hb in K'.
    exact (MainMore.keeps_trans _ _ _ K K').
  - pose proof (chain_keeps w ClassifierLoad ClassifierLoad
                  SequenceTaggerLoad PipelineCPU (Name "sentiment-fast")
                  (Name "ner-fast") (Name "pos-fast") bart g) as K.
    fold (fast_chain w) in K. rewrite Hf in K.
    pose proof (chain_keeps w ClassifierLoad ClassifierLoad
                  SequenceTaggerLoad Pipeline (Name "sentiment")
                  (Name "ner") (Name "pos") bart g1) as K'.
    fold (fallback_chain w) in K'. rewrite Hb in K'.
    exact (MainMore.keeps_trans _ _ _ K K').
Qed.

(** X20. [get_models] never replaces nor drops a capability that is
    cached, whether it returns or raises; and once the four are cached
    it returns them and calls no loader. *)
Theorem cache_is_sticky (w : World) (g : Globals) :
  keeps g (snd (get_models w g))
  /\ (complete g -> get_models w g = (Ok (cached g), g)).
Proof.
  split; [apply gcf_get_models_keeps|].
  intros (s & n & p & t & H).
  destruct g as [gs gn gp gt sc tr]. unfold cached in H. simpl in H.
  injection H as -> -> -> ->. reflexivity.
Qed.

(** X21. The health route reports [models_loaded] by the sentiment model
    alone: it is true after every call of [get_models] that returned,
    and stays true from then on, also after a call that raised. *)
Theorem health_follows_the_sentiment_model (w : World) (g : Globals) :
  (forall ms g', get_models w g = (Ok ms, g') ->
                 models_loaded (health_check g') = true)
  /\ (models_loaded (health_check g) = true ->
      models_loaded (health_check (snd (get_models w g))) = true).
Proof.
  split.
  - intros ms g' H.
    destruct (get_models_complete w g g' ms H)
      as (_ & s & n & p & t & Hc).
    unfold health_check, cached in *. simpl.
    injection Hc as -> _ _ _. reflexivity.
  - unfold health_check. simpl.
    destruct (_sentiment_model g) as [m|] eqn:E; [intros _ | discriminate].
    destruct (gcf_get_models_keeps w g) as (K & _).
    now rewrite (K m E).
Qed.

(** ** The analysis *)

(** The analysis goes on with what the first step resolves, as if that
    had been passed without audio. *)
Lemma analyze_resolved (w : World) (transcription resolved : pyval)
    (audio_url : option string) (g : Globals) :
  resolve_text w transcription audio_url (mk_frame g initial_result None)
    = (Ok resolved, mk_frame g initial_result None) ->
  analyze_transcription w transcription audio_url g
  = analyze_transcription w resolved None g.
Proof.
  intros H. unfold analyze_transcription, try_except, bind at 1 3.
  unfold body, bind at 1 3. rewrite H. reflexivity.
Qed.

(** X22. Text goes before audio: when the text passed has anything but
    blanks, the audio locator is not used, and the result is that of the
    same text without audio. *)
Theorem text_goes_before_audio (w : World) (raw : string)
    (audio_url : option string) (g : Globals) :
  truthy (strip raw) = true ->
  analyze_transcription w (PyStr raw) audio_url g
  = analyze_transcription w (PyStr raw) None g.
Proof.
  intros H. apply analyze_resolved. now apply resolve_text_given.
Qed.

Lemma text_goes_before_audio_witness :
  analyze_transcription Scenarios.calm (PyStr "I am fine.")
    (Some "https://example.org/a.webm") cold
  = analyze_transcription Scenarios.calm (PyStr "I am fine.") None cold.
Proof.
  exact (text_goes_before_audio Scenarios.calm "I am fine."
           (Some "https://example.org/a.webm") cold eq_refl).
Defined.

Lemma analyze_transcript (w : World) (transcription : pyval)
    (url transcript : string) (g : Globals) :
  lacks_text transcription = true -> truthy url = true ->
  transcribe_audio w url = Ok transcript ->
  analyze_transcription w transcription (Some url) g
  = analyze_transcription w (PyStr transcript) None g.
Proof.
  intros Hlacks Hurl Haudio. apply analyze_resolved.
  unfold resolve_text. rewrite Hlacks, Hurl. cbn [andb].
  unfold try_except, bind, lift. now rewrite Haudio.
Qed.

(** X23. A text transcribed from audio is analysed as a text passed:
    when the text is missing and the transcription of the audio returns,
    the result is that of the analysis of the transcript. *)
Theorem transcript_is_analysed_as_text (w : World) (transcription : pyval)
    (url transcript : string) (g : Globals) :
  lacks_text transcription = true -> truthy url = true ->
  transcribe_audio w url = Ok transcript ->
  analyze_transcription w transcription (Some url) g
  = analyze_transcription w (PyStr transcript) None g.
Proof.
  intros Hlacks Hurl Haudio. apply analyze_resolved.
  unfold resolve_text. rewrite Hlacks, Hurl. cbn [andb].
  unfold try_except, bind, lift. now rewrite Haudio.
Qed.

Lemma transcript_is_analysed_as_text_witness :
  analyze_transcription Scenarios.calm (PyStr "  ")
    (Some "https://example.org/a.webm") cold
  = analyze_transcription Scenarios.calm (PyStr "hello there") None cold.
Proof.
  exact (transcript_is_analysed_as_text Scenarios.calm (PyStr "  ")
           "https://example.org/a.webm" "hello there" cold
           eq_refl eq_refl eq_refl).
Defined.

(** The analysis of a non-empty string passed without audio. *)
Lemma analyze_plain_run (w : World) (raw : string) (g : Globals) :
  truthy raw = true ->
  analyze_transcription w (PyStr raw) None g
  = if truthy (contractions_fix w (strip raw))
    then match get_models w g with
         | (Ok ms, g') => (Ok (analysed w ms (contractions_fix w (strip raw))), g')
         | (Raise e, g') => (Ok (unloaded (contractions_fix w (strip raw)) e), g')
         end
    else (Ok (rejected [] Main.empty_after_cleaning), g).
Proof.
  intros Hraw.
  unfold analyze_transcription, try_except, bind at 1, body, bind at 1.
  unfold resolve_text, ret at 1. rewrite Hraw. cbn [negb].
  destruct (truthy (contractions_fix w (strip raw))) eqn:Hclean;
    [|reflexivity].
  cbn [negb].
  unfold bind at 1, set_statistics, update_result, modify.
  cbn [result globals sentence initial_result].
  unfold bind at 1, try_except at 1, bind at 1, on_globals.
  cbn [globals result sentence].
  destruct (get_models w g) as [[ms|e] g']; [|reflexivity].
  pose proof (stages_run w ms (contractions_fix w (strip raw)) g'
                (with_statistics (contractions_fix w (strip raw)))) as S.
  destruct ms as [[[sm nm] pm] tm]. destruct S as [o S].
  unfold ret at 1. unfold with_statistics in S.
  cbn [success sentiment entities pos topics errors flagged_words
       initial_result general_topics].
  rewrite S. reflexivity.
Qed.

Lemma plain_failure_is_bare (w : World) (transcription : pyval)
    (g g' : Globals) (r : AnalysisResult) :
  analyze_transcription w transcription None g = (Ok r, g') ->
  success r = false ->
  g' = g /\ exists e, r = rejected [] e.
Proof.
  destruct transcription as [|raw|].
  - intros [= <- <-] _. split; [reflexivity | now exists Main.invalid_input].
  - destruct (truthy raw) eqn:Hraw.
    + rewrite (analyze_plain_run w raw g Hraw).
      destruct (truthy (contractions_fix w (strip raw))).
      * destruct (get_models w g) as [[[[[sm nm] pm] tm]|e] g1];
          intros [= <- <-]; discriminate.
      * intros [= <- <-] _.
        split; [reflexivity | now exists Main.empty_after_cleaning].
    + destruct raw; [|discriminate Hraw].
      intros [= <- <-] _.
      split; [reflexivity | now exists Main.invalid_input].
  - intros [= <- <-] _. split; [reflexivity | now exists Main.invalid_input].
Qed.

(** X24. A result with [success = false] is bare: it carries no
    statistics and no output of any stage, only its errors, and the
    analysis that returned it has neither loaded a capability nor
    called a loader. *)
Theorem failed_analysis_is_bare (w : World) (transcription : pyval)
    (audio_url : option string) (g g' : Globals) (r : AnalysisResult) :
  analyze_transcription w transcription audio_url g = (Ok r, g') ->
  success r = false ->
  g' = g /\ exists before e, r = rejected before e.
Proof.
  intros Hrun Hfail.
  assert (Plain : forall t,
            analyze_transcription w t None g = (Ok r, g') ->
            g' = g /\ exists before e, r = rejected before e).
  { intros t H. destruct (plain_failure_is_bare w t g g' r H Hfail)
      as [-> [e ->]]. split; [reflexivity | now exists [], e]. }
  destruct audio_url as [url|]; [|now apply (Plain transcription)].
  destruct (lacks_text transcription && truthy url) eqn:Huse.
  - apply andb_prop in Huse. destruct Huse as [Hlacks Hurl].
    destruct (transcribe_audio w url) as [transcript|e] eqn:Haudio.
    + rewrite (analyze_transcript w _ url transcript g
                 Hlacks Hurl Haudio) in Hrun.
      now apply (Plain (PyStr transcript)).
    + rewrite (analyze_audio_failure w _ url e g Hlacks Hurl Haudio) in Hrun.
      injection Hrun as <- <-. split; [reflexivity|]. eauto.
  - rewrite (analyze_resolved w transcription transcription (Some url) g)
      in Hrun; [now apply (Plain transcription)|].
    unfold resolve_text. now rewrite Huse.
Qed.

Lemma failed_analysis_is_bare_witness :
  analyze_transcription Scenarios.silent (PyStr "")
    (Some "https://example.org/a.webm") cold
  = (Ok (rejected [] Main.invalid_input), cold)
  /\ cold = cold
  /\ exists before e,
       rejected [] Main.invalid_input = rejected before e.
Proof.
  split; [reflexivity|].
  exact (failed_analysis_is_bare Scenarios.silent (PyStr "")
           (Some "https://example.org/a.webm") cold cold
           (rejected [] Main.invalid_input) eq_refl eq_refl).
Defined.

(** ** The POS distribution *)

(** X25. One token without a tag voids the POS distribution: the
    counting loop raises an AttributeError as soon as some token has no
    tag, whatever it has counted; when every token has a tag, it adds
    one count for each, so that the counts of the result add up to the
    number of tokens. *)
Theorem pos_counts_need_every_tag (tags : list (option string))
    (pos_counts : dict nat) :
  if existsb is_none tags
  then count_tags tags pos_counts
       = Raise (mk_exn AttributeError
                  "'NoneType' object has no attribute 'split'")
  else exists counted,
         count_tags tags pos_counts = Ok counted
         /\ Flagging.dict_sum counted
            = Flagging.dict_sum pos_counts + length tags.
Proof.
  revert pos_counts. induction tags as [|[tag|] tags IH]; intros d; simpl.
  - exists d. split; [reflexivity | lia].
  - specialize (IH (count_tag d (base_tag tag))).
    destruct (existsb is_none tags); [exact IH|].
    destruct IH as (counted & -> & Hsum). exists counted.
    split; [reflexivity|]. rewrite Hsum, MainMore.count_tag_sum. lia.
  - reflexivity.
Qed.

(** ** The endpoint *)

Ltac status_of H :=
  unfold ret in H; inversion H; subst; unfold statuses; simpl; tauto.

(** X26. The endpoint raises nothing to its framework: for every request
    and every behaviour of its collaborators it answers with a body and
    one of the statuses 200, 400, 401 and 500. *)
Theorem gcf_endpoint_always_answers (w : World) (request : Request)
    (g : Globals) :
  exists b st g',
    nlp_analyze w request g = (Ok (b, st), g') /\ In st statuses.
Proof.
  unfold nlp_analyze.
  destruct (String.eqb (method request) "OPTIONS");
    [do 3 eexists; split; [reflexivity | unfold statuses; simpl; tauto]|].
  unfold try_except at 1.
  match goal with |- context [match ?m g with _ => _ end] =>
    destruct (m g) as [[[b st]|e] g'] eqn:Run
  end.
  2:{ unfold on_error, statuses. destruct (is_value_error e);
        do 3 eexists; (split; [reflexivity | simpl; tauto]). }
  exists b, st, g'. split; [reflexivity|].
  destruct (authorization request) as [h|]; [|status_of Run].
  destruct (negb (truthy h) || negb (startswith "Bearer " h));
    [status_of Run|].
  apply MainMore.bind_ok_inv in Run. destruct Run as (token & g1 & _ & Run).
  apply MainMore.bind_ok_inv in Run.
  destruct Run as ([uid|] & g2 & _ & Run); [|status_of Run].
  destruct (data request) as [[transcription audioUrl]|]; [|status_of Run].
  destruct (negb (truthy (strip transcription))
            && negb (truthy (strip audioUrl))); [status_of Run|].
  apply MainMore.bind_ok_inv in Run. destruct Run as (r & g3 & _ & Run).
  status_of Run.
Qed.

(** X27. A token the identity provider refuses, for whatever reason, is
    answered with status 401 and "Invalid authentication token"; nothing
    else is called. *)
Theorem refused_token_is_answered_401 (w : World) (request : Request)
    (auth_header token : string) (refusal : exn) (g : Globals) :
  String.eqb (method request) "OPTIONS" = false ->
  authorization request = Some auth_header ->
  startswith "Bearer " auth_header = true ->
  index (split_on " " auth_header) 1 = Ok token ->
  verify_id_token w token = Raise refusal ->
  nlp_analyze w request g
  = (Ok (Failure "Invalid authentication token", 401), g).
Proof.
  intros Hm Hh Hb Ht Hv. unfold nlp_analyze. rewrite Hm, Hh, Hb.
  assert (truthy auth_header = true) as ->
    by (destruct auth_header; [discriminate Hb | reflexivity]).
  cbn [negb orb].
  unfold try_except at 1, bind at 1, lift at 1. rewrite Ht.
  unfold bind at 1, try_except at 1, bind at 1, lift at 1. rewrite Hv.
  reflexivity.
Qed.

Lemma refused_token_is_answered_401_witness :
  nlp_analyze (Scenarios.with_verifier Scenarios.calm Scenarios.malformed)
    (Scenarios.gcf_request "I am fine." "") cold
  = (Ok (Failure "Invalid authentication token", 401), cold).
Proof.
  exact (refused_token_is_answered_401
           (Scenarios.with_verifier Scenarios.calm Scenarios.malformed)
           (Scenarios.gcf_request "I am fine." "")
           "Bearer token-1" "token-1" Scenarios.malformed cold
           eq_refl eq_refl eq_refl eq_refl eq_refl).
Defined.

(** ** [transcribe_audio] *)

(** X28. [transcribe_audio] returns text only for a configured key, a
    download that succeeded and a response of status 200, and what it
    returns is the text of that response, trimmed; so it is trimmed. *)
Theorem transcription_needs_key_and_200 (w : World) (url transcript : string) :
  transcribe_audio w url = Ok transcript ->
  strip transcript = transcript
  /\ exists key content response_text,
       openai_api_key w = Some key /\ truthy key = true
       /\ download w url = Ok content
       /\ whisper w key content = Ok (200, response_text)
       /\ transcript = strip response_text.
Proof.
  unfold transcribe_audio.
  destruct (openai_api_key w) as [key|]; [|discriminate].
  destruct (truthy key) eqn:Hkey; [|discriminate]. cbn [negb].
  destruct (download w url) as [content|e]; [|discriminate].
  destruct (whisper w key content) as [[status_code response_text]|e] eqn:Hw;
    [|discriminate].
  destruct (Nat.eqb_spec status_code 200) as [-> |_]; [|discriminate].
  intros [= <-]. split; [apply strip_idempotent|].
  now exists key, content, response_text.
Qed.

Lemma transcription_needs_key_and_200_witness :
  strip "hello there" = "hello there"
  /\ exists key content response_text,
       openai_api_key Scenarios.calm = Some key /\ truthy key = true
       /\ download Scenarios.calm "https://example.org/a.webm" = Ok content
       /\ whisper Scenarios.calm key content = Ok (200, response_text)
       /\ "hello there" = strip response_text.
Proof.
  exact (transcription_needs_key_and_200 Scenarios.calm
           "https://example.org/a.webm" "hello there" eq_refl).
Defined.

(** X29. Without an API key, a request that carries audio and no text
    is answered with status 200 and a bare result with
    [success = false] whose errors name the missing key and then the
    missing text; the audio is not downloaded. *)
Theorem missing_key_is_answered_200 (w : World) (request : Request)
    (uid transcription audioUrl : string) (g : Globals) :
  authenticated w request uid transcription audioUrl ->
  truthy (strip transcription) = false ->
  truthy (strip audioUrl) = true ->
  openai_api_key w = None ->
  nlp_analyze w request g
  = (Ok (Analysis
           (rejected
              ["Audio transcription failed: OPENAI_API_KEY environment variable not set"]
              no_text_available) uid, 200), g).
Proof.
  intros Hauth Ht Ha Hkey.
  rewrite (gcf_authenticated_run w request uid _ _ g Hauth), Ht, Ha.
  cbn [negb andb].
  rewrite (analyze_audio_failure w (PyStr (strip transcription))
             (strip audioUrl)
             (mk_exn ValueError "OPENAI_API_KEY environment variable not set")
             g); [reflexivity | | exact Ha |].
  - unfold lacks_text. now rewrite Ht.
  - unfold transcribe_audio. now rewrite Hkey.
Qed.

Lemma missing_key_is_answered_200_witness :
  nlp_analyze (Scenarios.without_key Scenarios.calm)
    (Scenarios.gcf_request " " "https://example.org/a.webm") cold
  = (Ok (Analysis
           (rejected
              ["Audio transcription failed: OPENAI_API_KEY environment variable not set"]
              no_text_available) "user-1", 200), cold).
Proof.
  refine (missing_key_is_answered_200 (Scenarios.without_key Scenarios.calm)
            (Scenarios.gcf_request " " "https://example.org/a.webm")
            "user-1" " " "https://example.org/a.webm" cold _
            eq_refl eq_refl eq_refl).
  split; [reflexivity|]. split; [reflexivity|].
  exists "Bearer token-1", "token-1". repeat split.
Defined.

End GcfMore.
